(** * secrets_example.h: the WiFi credentials template

    The repository is one C++ header, [main/secrets_example.h].  It has no
    functions: its meaning is what a C++ translation unit gets when it
    includes the header.  This development embeds the header as the text it
    is, and gives that text its meaning through the part of the C++
    translation phases the header exercises:

    - lexing a source line into preprocessing tokens, with block comments,
      line comments and string literals ([Lexer]);
    - the conditional-inclusion directives [#ifndef], [#define], [#endif]
      ([Preprocessor]);
    - declarations of the form [const char* name = "literal";] ([Parser]);
    - reading such a variable back as a NUL-terminated C string, and the
      assignments its declared type permits ([Runtime]).

    Whatever lies outside that fragment (numeric literals, character
    literals, unknown or out-of-range escapes, adjacent literals, line
    splicing, macros with a replacement list, other directives, other
    declarations) is rejected with [None], never given a made-up meaning:
    [None] tells that the fragment has no answer, which for such input is
    not always that the build fails. *)

From Stdlib Require Import String Ascii List Bool Arith Lia.
Import ListNotations.
Local Open Scope list_scope.
Local Open Scope string_scope.

(** ** The option monad used by every fallible phase *)

Definition bind {A B : Type} (o : option A) (f : A -> option B) : option B :=
  match o with
  | Some a => f a
  | None => None
  end.

Notation "x <- c1 ;; c2" := (bind c1 (fun x => c2))
  (at level 61, c1 at next level, right associativity).

(** ** The source text *)

Module Source.

(** The double quote character, and a string between double quotes. *)
Definition dquote : ascii := "034"%char.

Definition quoted (s : string) : string :=
  String dquote (s ++ String dquote EmptyString).

(** The two placeholder values of the template. *)
Definition placeholder_ssid : string := "YOUR_WIFI_SSID".
Definition placeholder_password : string := "YOUR_WIFI_PASSWORD".

(** Lines 18 and 19 of the header, with [v] between the quotes. *)
Definition ssid_line (v : string) : string :=
  "const char* ssid = " ++ quoted v
    ++ ";        // Replace with your WiFi network name".

Definition password_line (v : string) : string :=
  "const char* password = " ++ quoted v
    ++ "; // Replace with your WiFi password".

(** [main/secrets_example.h], line by line.  Lines 3 and 9 end in a space;
    the last line has no line terminator. *)
Definition secrets_example_h : list string :=
  [ "/*"
  ; " * WiFi Credentials Template"
  ; " * "
  ; " * INSTRUCTIONS:"
  ; " * 1. Copy this file and rename it to " ++ quoted "secrets.h"
  ; " * 2. Replace YOUR_WIFI_SSID with your actual WiFi network name"
  ; " * 3. Replace YOUR_WIFI_PASSWORD with your actual WiFi password"
  ; " * 4. Save the file"
  ; " * "
  ; " * IMPORTANT: Never commit secrets.h to version control!"
  ; " * Only commit secrets_example.h as a template."
  ; " */"
  ; EmptyString
  ; "#ifndef SECRETS_H"
  ; "#define SECRETS_H"
  ; EmptyString
  ; "// WiFi Network Credentials"
  ; ssid_line placeholder_ssid
  ; password_line placeholder_password
  ; EmptyString
  ; "#endif" ].

(** Number of bytes of a file whose lines are separated (not terminated) by
    one line feed each. *)
Definition byte_size (ls : list string) : nat :=
  fold_right (fun l n => String.length l + n) 0 ls + (List.length ls - 1).

(** The developer's edit: replace the first occurrence of [old] in a line. *)
Fixpoint replace_first (old new s : string) : string :=
  if String.prefix old s
  then new ++ String.substring (String.length old)
                               (String.length s - String.length old) s
  else match s with
       | EmptyString => EmptyString
       | String c s' => String c (replace_first old new s')
       end.

(** Apply [f] to line number [n] (counted from 1, as an editor does). *)
Fixpoint edit_line (n : nat) (f : string -> string) (ls : list string)
  : list string :=
  match ls, n with
  | [], _ => []
  | l :: r, 0 => l :: r
  | l :: r, 1 => f l :: r
  | l :: r, S n' => l :: edit_line n' f r
  end.

(** Instructions 1 to 3 of the header: a copy in which the two placeholder
    values (the literals of lines 18 and 19) are replaced by [s] and [p]. *)
Definition copy_with (s p : string) : list string :=
  edit_line 18 (replace_first placeholder_ssid s)
    (edit_line 19 (replace_first placeholder_password p) secrets_example_h).

End Source.

(** ** Lexing a source line (translation phase 3) *)

Module Lexer.
Import Source.

Inductive token : Type :=
| TIdent (s : string)      (* identifier or keyword *)
| TString (s : string)     (* string literal, escapes already decoded *)
| TPunct (c : ascii).      (* any other one-character token *)

(** What the lexer is in the middle of. *)
Inductive mode : Type :=
| Code                                   (* between tokens *)
| InIdent (acc : string)                 (* inside an identifier *)
| InString (acc : string)                (* inside a string literal *)
| InEscape (acc : string)                (* after a backslash in a literal *)
| InOctal (acc : string) (v n : nat)     (* octal escape, n digits read *)
| InHex (acc : string) (v : option nat)  (* hex escape, after the x *)
| Slash                                  (* a slash has been read *)
| Block                                  (* inside a block comment *)
| BlockStar                              (* in a block comment, after a star *)
| Line (acc : string).                   (* inside a line comment *)

Definition lstate : Type := (mode * list token)%type.

Definition between (lo hi : nat) (c : ascii) : bool :=
  Nat.leb lo (nat_of_ascii c) && Nat.leb (nat_of_ascii c) hi.

Definition is_space (c : ascii) : bool :=
  (c =? " ")%char || (c =? "009")%char || (c =? "011")%char
  || (c =? "012")%char.

Definition is_newline (c : ascii) : bool :=
  (c =? "010")%char || (c =? "013")%char.

Definition is_digit (c : ascii) : bool := between 48 57 c.

Definition is_ident_start (c : ascii) : bool :=
  between 65 90 c || between 97 122 c || (c =? "_")%char.

Definition is_ident_char (c : ascii) : bool := is_ident_start c || is_digit c.

Definition is_octal (c : ascii) : bool := between 48 55 c.

Definition hex_value (c : ascii) : option nat :=
  if is_digit c then Some (nat_of_ascii c - 48)
  else if between 65 70 c then Some (nat_of_ascii c - 55)
  else if between 97 102 c then Some (nat_of_ascii c - 87)
  else None.

(** The simple escape sequences of C++. *)
Definition simple_escape (c : ascii) : option ascii :=
  if (c =? "n")%char then Some "010"%char
  else if (c =? "t")%char then Some "009"%char
  else if (c =? "r")%char then Some "013"%char
  else if (c =? "a")%char then Some "007"%char
  else if (c =? "b")%char then Some "008"%char
  else if (c =? "f")%char then Some "012"%char
  else if (c =? "v")%char then Some "011"%char
  else if (c =? "\")%char || (c =? "'")%char || (c =? "?")%char
          || (c =? dquote)%char then Some c
  else None.

(** Identifiers that, directly before a double quote, make an encoding
    prefix or a raw string: outside the fragment. *)
Definition is_literal_prefix (s : string) : bool :=
  existsb (String.eqb s) ["L"; "u"; "U"; "u8"; "R"; "LR"; "uR"; "UR"; "u8R"].

Definition snoc (s : string) (c : ascii) : string := s ++ String c EmptyString.

Definition emit (t : token) (toks : list token) : list token := toks ++ [t].

(** One character read between tokens. *)
Definition code_step (toks : list token) (c : ascii) : option lstate :=
  if is_space c then Some (Code, toks)
  else if is_ident_start c then Some (InIdent (String c EmptyString), toks)
  else if (c =? dquote)%char then Some (InString EmptyString, toks)
  else if (c =? "/")%char then Some (Slash, toks)
  else if is_digit c || (c =? "'")%char || (c =? "\")%char then None
  else Some (Code, emit (TPunct c) toks).

(** One character read inside a string literal. *)
Definition string_step (acc : string) (toks : list token) (c : ascii)
  : option lstate :=
  if (c =? dquote)%char then Some (Code, emit (TString acc) toks)
  else if (c =? "\")%char then Some (InEscape acc, toks)
  else Some (InString (snoc acc c), toks).

(** A numeric escape denotes one [char]: its value must fit a byte. *)
Definition close_escape (acc : string) (v : nat) (toks : list token)
  (c : ascii) : option lstate :=
  if Nat.leb v 255
  then string_step (snoc acc (ascii_of_nat v)) toks c
  else None.

Definition lex_step (st : lstate) (c : ascii) : option lstate :=
  let (m, toks) := st in
  match m with
  | Code => code_step toks c
  | InIdent acc =>
      if is_ident_char c then Some (InIdent (snoc acc c), toks)
      else if (c =? dquote)%char && is_literal_prefix acc then None
      else code_step (emit (TIdent acc) toks) c
  | InString acc => string_step acc toks c
  | InEscape acc =>
      match simple_escape c with
      | Some e => Some (InString (snoc acc e), toks)
      | None =>
          if is_octal c then Some (InOctal acc (nat_of_ascii c - 48) 1, toks)
          else if (c =? "x")%char then Some (InHex acc None, toks)
          else None
      end
  | InOctal acc v n =>
      if is_octal c && Nat.ltb n 3
      then Some (InOctal acc (8 * v + (nat_of_ascii c - 48)) (S n), toks)
      else close_escape acc v toks c
  | InHex acc v =>
      match hex_value c, v with
      | Some d, None => Some (InHex acc (Some d), toks)
      | Some d, Some w => Some (InHex acc (Some (16 * w + d)), toks)
      | None, Some w => close_escape acc w toks c
      | None, None => None
      end
  | Slash =>
      if (c =? "/")%char then Some (Line EmptyString, toks)
      else if (c =? "*")%char then Some (Block, toks)
      else code_step (emit (TPunct "/") toks) c
  | Block => Some (if (c =? "*")%char then BlockStar else Block, toks)
  | BlockStar =>
      Some (if (c =? "/")%char then Code
            else if (c =? "*")%char then BlockStar else Block, toks)
  | Line acc => Some (Line (snoc acc c), toks)
  end.

(** A line holds no line terminator of its own. *)
Fixpoint lex_run (st : lstate) (s : string) : option lstate :=
  match s with
  | EmptyString => Some st
  | String c s' =>
      if is_newline c then None
      else st' <- lex_step st c ;; lex_run st' s'
  end.

(** A lexed line: its tokens, its line comment if it has one, and whether
    it ends inside a block comment. *)
Record lexed : Type := mk_lexed
  { lx_tokens : list token;
    lx_comment : option string;
    lx_open : bool }.

(** The end of the line closes an identifier and a line comment; a string
    literal must not be open there. *)
Definition lex_eol (st : lstate) : option lexed :=
  let (m, toks) := st in
  match m with
  | Code => Some (mk_lexed toks None false)
  | InIdent acc => Some (mk_lexed (emit (TIdent acc) toks) None false)
  | Slash => Some (mk_lexed (emit (TPunct "/") toks) None false)
  | Block | BlockStar => Some (mk_lexed toks None true)
  | Line acc => Some (mk_lexed toks (Some acc) false)
  | InString _ | InEscape _ | InOctal _ _ _ | InHex _ _ => None
  end.

(** Blanks that may stand between a backslash and the end of the line and
    still let the compiler splice the line with the next one. *)
Definition is_splice_blank (c : ascii) : bool :=
  is_space c || (c =? "000")%char.

Fixpoint only_blanks (s : string) : bool :=
  match s with
  | EmptyString => true
  | String c s' => is_splice_blank c && only_blanks s'
  end.

(** Line splicing (phase 2) is not modelled: a line whose last character,
    blanks at its end apart, is a backslash is rejected. *)
Fixpoint spliced (s : string) : bool :=
  match s with
  | EmptyString => false
  | String c s' => ((c =? "\")%char && only_blanks s') || spliced s'
  end.

(** Lex one line; [open] tells whether it starts inside a block comment. *)
Definition lex_line (open : bool) (l : string) : option lexed :=
  if spliced l then None
  else st <- lex_run (if open then Block else Code, []) l ;; lex_eol st.

(** Lex consecutive lines, in order; the boolean tells whether the last one
    ends inside a block comment. *)
Fixpoint lex_lines (open : bool) (ls : list string)
  : option (list lexed * bool) :=
  match ls with
  | [] => Some ([], open)
  | l :: r =>
      x <- lex_line open l ;;
      rest <- lex_lines (lx_open x) r ;;
      Some (x :: fst rest, snd rest)
  end.

(** Lex a whole file into its token lines.  A block comment must be closed
    by the end of the file. *)
Definition lex_file (ls : list string) : option (list (list token)) :=
  r <- lex_lines false ls ;;
  if snd r then None else Some (map lx_tokens (fst r)).

End Lexer.

(** ** Conditional inclusion (translation phase 4) *)

Module Preprocessor.
Import Source Lexer.

(** The state of a translation unit while it is preprocessed: the macros
    defined so far (all with an empty replacement list), the stack of open
    [#ifndef] groups (the head tells whether the innermost group is kept),
    and the tokens kept so far. *)
Record pp_state : Type := mk_pp
  { pp_macros : list string;
    pp_stack : list bool;
    pp_out : list token }.

Definition pp_init : pp_state := mk_pp [] [] [].

Definition defined (m : string) (macros : list string) : bool :=
  existsb (String.eqb m) macros.

Definition active (st : pp_state) : bool :=
  match pp_stack st with
  | [] => true
  | b :: _ => b
  end.

(** A macro with an empty replacement list expands to nothing. *)
Definition expand (macros : list string) (toks : list token) : list token :=
  filter (fun t => match t with
                   | TIdent x => negb (defined x macros)
                   | _ => true
                   end) toks.

(** The directives of the header, given the tokens after the [#]. *)
Definition directive (st : pp_state) (d : list token) : option pp_state :=
  match d with
  | [] => Some st
  | [TIdent k] =>
      if k =? "endif" then
        match pp_stack st with
        | [] => None
        | _ :: up => Some (mk_pp (pp_macros st) up (pp_out st))
        end
      else None
  | [TIdent k; TIdent m] =>
      if k =? "ifndef" then
        Some (mk_pp (pp_macros st)
                    ((active st && negb (defined m (pp_macros st)))
                       :: pp_stack st)
                    (pp_out st))
      else if k =? "define" then
        Some (if active st && negb (defined m (pp_macros st))
              then mk_pp (pp_macros st ++ [m]) (pp_stack st) (pp_out st)
              else st)
      else None
  | _ => None
  end.

(** A line whose first token is [#] is a directive; any other line is text,
    kept (after macro expansion) when the innermost group is kept. *)
Definition pp_line (st : pp_state) (toks : list token) : option pp_state :=
  match toks with
  | TPunct c :: d =>
      if (c =? "#")%char then directive st d
      else Some (if active st
                 then mk_pp (pp_macros st) (pp_stack st)
                            (pp_out st ++ expand (pp_macros st) toks)
                 else st)
  | _ =>
      Some (if active st
            then mk_pp (pp_macros st) (pp_stack st)
                       (pp_out st ++ expand (pp_macros st) toks)
            else st)
  end.

Fixpoint pp_lines (st : pp_state) (tls : list (list token))
  : option pp_state :=
  match tls with
  | [] => Some st
  | toks :: r => st' <- pp_line st toks ;; pp_lines st' r
  end.

(** [#include] of a file at the top level of the translation unit: every
    group the file opens must be closed by the end of the file. *)
Definition include_file (st : pp_state) (file : list string)
  : option pp_state :=
  tls <- lex_file file ;;
  st' <- pp_lines st tls ;;
  match pp_stack st' with
  | [] => Some st'
  | _ :: _ => None
  end.

Fixpoint include_all (st : pp_state) (files : list (list string))
  : option pp_state :=
  match files with
  | [] => Some st
  | f :: r => st' <- include_file st f ;; include_all st' r
  end.

(** A translation unit that includes [files] in this order. *)
Definition preprocess (files : list (list string)) : option pp_state :=
  include_all pp_init files.

End Preprocessor.

(** ** Declarations (translation phase 7) *)

Module Parser.
Import Source Lexer Preprocessor.

(** The types the fragment can write: [char], [const T], [T*]. *)
Inductive ctype : Type :=
| TChar
| TConst (t : ctype)
| TPtr (t : ctype).

(** A variable defined with a string literal as its initialiser.  [d_init]
    is the content of the literal; the array it denotes has one more
    element, the terminating NUL. *)
Record decl : Type := mk_decl
  { d_type : ctype;
    d_name : string;
    d_init : string }.

Definition is_punct (p : ascii) (t : token) : bool :=
  match t with
  | TPunct c => (c =? p)%char
  | _ => false
  end.

(** Cut the token stream at each semicolon. *)
Fixpoint split_decls (cur : list token) (ts : list token)
  : option (list (list token)) :=
  match ts with
  | [] => match cur with
          | [] => Some []
          | _ :: _ => None
          end
  | t :: r =>
      if is_punct ";" t
      then rest <- split_decls [] r ;; Some (cur :: rest)
      else split_decls (cur ++ [t]) r
  end.

(** An optional [const]. *)
Definition eat_const (ts : list token) : bool * list token :=
  match ts with
  | TIdent k :: r => if k =? "const" then (true, r) else (false, ts)
  | _ => (false, ts)
  end.

Definition qualify (c : bool) (t : ctype) : ctype :=
  if c then TConst t else t.

Definition is_keyword (x : string) : bool :=
  (x =? "const") || (x =? "char").

(** [const? char const? * const? name = "literal"], the semicolon removed. *)
Definition parse_decl (ts : list token) : option decl :=
  let (c1, ts1) := eat_const ts in
  match ts1 with
  | TIdent k :: ts2 =>
      if k =? "char" then
        let (c2, ts3) := eat_const ts2 in
        if c1 && c2 then None
        else
          match ts3 with
          | star :: ts4 =>
              if is_punct "*" star then
                let (c3, ts5) := eat_const ts4 in
                match ts5 with
                | [TIdent x; eq; TString v] =>
                    if is_punct "=" eq && negb (is_keyword x)
                    then Some (mk_decl
                                 (qualify c3 (TPtr (qualify (c1 || c2) TChar)))
                                 x v)
                    else None
                | _ => None
                end
              else None
          | [] => None
          end
      else None
  | _ => None
  end.

Fixpoint parse_all (ss : list (list token)) : option (list decl) :=
  match ss with
  | [] => Some []
  | s :: r => d <- parse_decl s ;; ds <- parse_all r ;; Some (d :: ds)
  end.

(** No name is defined twice in one translation unit. *)
Fixpoint distinct (names : list string) : bool :=
  match names with
  | [] => true
  | x :: r => negb (existsb (String.eqb x) r) && distinct r
  end.

Definition parse_unit (ts : list token) : option (list decl) :=
  ss <- split_decls [] ts ;;
  ds <- parse_all ss ;;
  if distinct (map d_name ds) then Some ds else None.

(** Compile a translation unit that includes [files] in this order: the
    variables it defines, or [None] when the build fails. *)
Definition compile (files : list (list string)) : option (list decl) :=
  st <- preprocess files ;; parse_unit (pp_out st).

End Parser.

(** ** The variables at run time *)

Module Runtime.
Import Source Lexer Preprocessor Parser.

(** A [const char*] is read as a C string: the characters before the first
    NUL. *)
Fixpoint c_str (s : string) : string :=
  match s with
  | EmptyString => EmptyString
  | String c s' => if (c =? "000")%char then EmptyString
                   else String c (c_str s')
  end.

(** Memory: the character arrays, and for each pointer variable the index
    of the array it points to. *)
Record memory : Type := mk_memory
  { m_objects : list string;
    m_vars : list (string * nat) }.

Fixpoint lookup (x : string) (vars : list (string * nat)) : option nat :=
  match vars with
  | [] => None
  | (y, k) :: r => if y =? x then Some k else lookup x r
  end.

Fixpoint update (x : string) (k : nat) (vars : list (string * nat))
  : list (string * nat) :=
  match vars with
  | [] => []
  | (y, j) :: r => if y =? x then (y, k) :: r else (y, j) :: update x k r
  end.

(** Static initialisation: one array per literal, in declaration order. *)
Fixpoint load_from (k : nat) (ds : list decl) : memory :=
  match ds with
  | [] => mk_memory [] []
  | d :: r =>
      let m := load_from (S k) r in
      mk_memory (d_init d :: m_objects m) ((d_name d, k) :: m_vars m)
  end.

Definition load (ds : list decl) : memory := load_from 0 ds.

(** The value a program sees when it reads variable [x]. *)
Definition read (m : memory) (x : string) : option string :=
  k <- lookup x (m_vars m) ;;
  o <- nth_error (m_objects m) k ;;
  Some (c_str o).

Definition read_constant (ds : list decl) (x : string) : option string :=
  read (load ds) x.

(** Two statements an including program can write with such a variable:
    [x = "lit";] makes [x] point to another literal, [x[i] = c;] stores a
    character through [x].  The other ways C++ has to reach a variable
    (casts, aliases, null pointers) are not modelled. *)
Inductive operation : Type :=
| Reseat (x : string) (lit : string)
| Poke (x : string) (i : nat) (c : ascii).

Definition type_of (ds : list decl) (x : string) : option ctype :=
  option_map d_type (find (fun d => d_name d =? x) ds).

Definition strip_const (t : ctype) : ctype :=
  match t with
  | TConst u => u
  | _ => t
  end.

(** C++ accepts an assignment only to a modifiable lvalue, one whose type
    is not const-qualified.  A string literal converts to [const char*]
    and to nothing less qualified. *)
Definition well_typed (ds : list decl) (op : operation) : bool :=
  match op with
  | Reseat x _ =>
      match type_of ds x with
      | Some (TPtr (TConst TChar)) => true
      | _ => false
      end
  | Poke x _ _ =>
      match option_map strip_const (type_of ds x) with
      | Some (TPtr TChar) => true
      | _ => false
      end
  end.

(** One statement; [None] where C++ leaves the behaviour undefined.  Every
    array of this memory is a string literal, and a store into a string
    literal is undefined, whatever the type it was reached through. *)
Definition exec (m : memory) (op : operation) : option memory :=
  match op with
  | Reseat x lit =>
      _ <- lookup x (m_vars m) ;;
      Some (mk_memory (m_objects m ++ [lit])
                      (update x (List.length (m_objects m)) (m_vars m)))
  | Poke _ _ _ => None
  end.

Fixpoint run (m : memory) (ops : list operation) : option memory :=
  match ops with
  | [] => Some m
  | op :: r => m' <- exec m op ;; run m' r
  end.

(** Variable [x] of the unit [ds] is read-only: whatever well-typed
    statements of these two forms a program runs, reading [x] gives what it
    gave at start. *)
Definition read_only (ds : list decl) (x : string) : Prop :=
  forall ops m,
    forallb (well_typed ds) ops = true ->
    run (load ds) ops = Some m ->
    read m x = read (load ds) x.

End Runtime.

(** ** Values that can be typed between the quotes as they are *)

Module Values.
Import Source Lexer.

Fixpoint all_chars (p : ascii -> bool) (s : string) : bool :=
  match s with
  | EmptyString => true
  | String c s' => p c && all_chars p s'
  end.

(** A character that stands for itself inside a string literal and in a C
    string: no double quote, no backslash, no line break, no NUL. *)
Definition plain_char (c : ascii) : bool :=
  negb ((c =? dquote)%char || (c =? "\")%char || is_newline c
        || (c =? "000")%char).

Definition plain (s : string) : bool := all_chars plain_char s.

End Values.

(** ** What the header is expected to give *)

Module Expected.
Import Source Lexer Preprocessor Parser Runtime Values.

(** The include guard of the header. *)
Definition SECRETS_H : string := "SECRETS_H".

(** The tokens of a line [const char* name = "value";]. *)
Definition decl_tokens (name value : string) : list token :=
  [TIdent "const"; TIdent "char"; TPunct "*"; TIdent name; TPunct "=";
   TString value; TPunct ";"].

(** The token lines of a copy of the header: twelve comment lines and an
    empty one, the guard, the two declarations, the end of the guard. *)
Definition copy_tokens (s p : string) : list (list token) :=
  (repeat [] 13
   ++ [ [TPunct "#"; TIdent "ifndef"; TIdent SECRETS_H];
        [TPunct "#"; TIdent "define"; TIdent SECRETS_H];
        []; [];
        decl_tokens "ssid" s;
        decl_tokens "password" p;
        [];
        [TPunct "#"; TIdent "endif"] ])%list.

(** Two pointers to constant characters, named [ssid] and [password]. *)
Definition copy_decls (s p : string) : list decl :=
  [ mk_decl (TPtr (TConst TChar)) "ssid" s;
    mk_decl (TPtr (TConst TChar)) "password" p ].

(** The round trip of two values through a copy of the header: the copy
    compiles, and reading the two variables gives the values back. *)
Definition round_trip (s p : string) : Prop :=
  exists ds,
    compile [copy_with s p] = Some ds
    /\ read_constant ds "ssid" = Some s
    /\ read_constant ds "password" = Some p.



(** Tokens through which code could raise or catch an error, or run at
    all: the exception keywords, and the brackets of a call or a body. *)
Definition exception_keyword (t : token) : bool :=
  match t with
  | TIdent k => existsb (String.eqb k) ["throw"; "try"; "catch"]
  | _ => false
  end.

Definition opens_code (t : token) : bool :=
  is_punct "(" t || is_punct "{" t.

Definition inert (toks : list token) : bool :=
  forallb (fun t => negb (exception_keyword t || opens_code t)) toks.

End Expected.

(** ** Measures on an open string literal *)

Module Literal.
Import Source Lexer Preprocessor Parser Runtime Values.

(** A character the lexer takes as it is inside a literal (NUL included). *)
Definition lex_plain_char (c : ascii) : bool :=
  negb ((c =? dquote)%char || (c =? "\")%char || is_newline c).

Definition lex_plain (s : string) : bool := all_chars lex_plain_char s.

(** Inside a literal: the length its value has once the escape being read,
    if there is one past its backslash, is complete. *)
Definition pending_length (m : mode) : option nat :=
  match m with
  | InString acc | InEscape acc => Some (String.length acc)
  | InOctal acc _ _ | InHex acc _ => Some (S (String.length acc))
  | _ => None
  end.

(** While the lexer reads a value typed between the quotes, with [r]
    characters of it left: either the literal is still open at [toks0] and
    its value will stay shorter than [n], or it has been closed with a
    value shorter than [n]. *)
Definition short_literal (n : nat) (toks0 : list token) (st : lstate)
  (r : nat) : Prop :=
  (exists k, pending_length (fst st) = Some k /\ snd st = toks0
             /\ k + r < n)
  \/ (exists v more, snd st = (toks0 ++ TString v :: more)%list
                     /\ String.length v < n).

(** A value without the two characters that have a meaning of their own
    inside a literal: no double quote, no backslash. *)
Definition quote_free (s : string) : bool :=
  all_chars (fun c => negb ((c =? dquote)%char || (c =? "\")%char)) s.

(** A translation unit that includes [files] into a unit already in state
    [st], for instance after other headers or command-line definitions. *)
Definition compile_from (st : pp_state) (files : list (list string))
  : option (list decl) :=
  st' <- include_all st files ;; parse_unit (pp_out st').

End Literal.

(** ** The comments of the header *)

Module Comments.
Import Source Lexer Values.

(** Text that does not close a block comment: no star directly followed
    by a slash ([star] tells whether a star has just been read), and no
    line terminator. *)
Fixpoint block_text (star : bool) (t : string) : bool :=
  match t with
  | EmptyString => true
  | String c t' =>
      negb (is_newline c) && negb (star && (c =? "/")%char)
      && block_text (c =? "*")%char t'
  end.

(** The lexer inside a block comment, after a star or not. *)
Definition block_mode (star : bool) : mode :=
  if star then BlockStar else Block.

(** A line that can stand inside the block comment: it does not close the
    comment and is not spliced with the next line. *)
Definition block_line (t : string) : bool :=
  block_text false t && negb (spliced t).

(** Text that can follow [//] on a line: no line terminator, and no
    backslash at its end (blanks apart) that would splice the next line
    into the comment. *)
Definition line_text (t : string) : bool :=
  all_chars (fun c => negb (is_newline c)) t && negb (spliced t).

(** Lines 17, 18 and 19 with [c] after the [//]. *)
Definition title_line (c : string) : string := "//" ++ c.

Definition ssid_line_with (v c : string) : string :=
  "const char* ssid = " ++ quoted v ++ ";        //" ++ c.

Definition password_line_with (v c : string) : string :=
  "const char* password = " ++ quoted v ++ "; //" ++ c.

(** The header with other comments and other values: [block] between the
    first and the twelfth line, [c17], [c18] and [c19] after the [//] of
    lines 17, 18 and 19. *)
Definition header_with (block : list string) (c17 c18 c19 s p : string)
  : list string :=
  ("/*" :: block
   ++ [ " */"
      ; EmptyString
      ; "#ifndef SECRETS_H"
      ; "#define SECRETS_H"
      ; EmptyString
      ; title_line c17
      ; ssid_line_with s c18
      ; password_line_with p c19
      ; EmptyString
      ; "#endif" ])%list.

(** Lines 2 to 11 of the header. *)
Definition instructions : list string := firstn 10 (skipn 1 secrets_example_h).

End Comments.

(** ** Facts about strings and the lexer *)

Module Facts.
Import Source Lexer Preprocessor Parser Runtime Values Expected.

Lemma append_assoc (a b c : string) : ((a ++ b) ++ c = a ++ (b ++ c))%string.
Proof. induction a as [|x a IH]; simpl; [reflexivity | now rewrite IH]. Qed.

Lemma append_empty (s : string) : (s ++ EmptyString)%string = s.
Proof. induction s as [|c s IH]; simpl; [reflexivity | now rewrite IH]. Qed.

Lemma snoc_app (acc : string) (c : ascii) (s : string) :
  (snoc acc c ++ s = acc ++ String c s)%string.
Proof. unfold snoc. now rewrite append_assoc. Qed.

(** The developer's edit of the two literals gives lines 18 and 19 with the
    new values between the quotes, and leaves the other lines alone. *)
Lemma copy_with_lines (s p : string) :
  copy_with s p
  = (firstn 17 secrets_example_h
       ++ [ssid_line s; password_line p; EmptyString; "#endif"])%list.
Proof.
  unfold copy_with, ssid_line, password_line, quoted. simpl.
  rewrite !append_assoc. reflexivity.
Qed.

Lemma copy_with_placeholders :
  copy_with placeholder_ssid placeholder_password = secrets_example_h.
Proof. reflexivity. Qed.

Lemma lex_run_app (st : lstate) (a b : string) :
  lex_run st (a ++ b) = (st' <- lex_run st a ;; lex_run st' b).
Proof.
  revert st; induction a as [|c a IH]; intros st; simpl; [reflexivity|].
  destruct (is_newline c); [reflexivity|].
  destruct (lex_step st c) as [st'|]; simpl; [apply IH | reflexivity].
Qed.

Lemma plain_char_inv (c : ascii) :
  plain_char c = true ->
  (c =? dquote)%char = false /\ (c =? "\")%char = false
  /\ is_newline c = false /\ (c =? "000")%char = false.
Proof.
  unfold plain_char. rewrite negb_true_iff, !orb_false_iff. tauto.
Qed.

(** Inside a string literal, plain characters are taken as they are. *)
Lemma lex_run_plain (s : string) : forall acc toks,
  plain s = true ->
  lex_run (InString acc, toks) s = Some (InString (acc ++ s), toks).
Proof.
  induction s as [|c s IH]; intros acc toks H; simpl.
  - now rewrite append_empty.
  - simpl in H. apply andb_true_iff in H as [Hc Hs].
    apply plain_char_inv in Hc as (Hq & Hb & Hn & _).
    rewrite Hn. unfold string_step. rewrite Hq, Hb. simpl.
    rewrite IH by assumption. now rewrite snoc_app.
Qed.

Lemma only_blanks_app (a b : string) :
  only_blanks (a ++ b) = only_blanks a && only_blanks b.
Proof.
  induction a as [|x a IH]; simpl; [reflexivity|].
  now rewrite IH, andb_assoc.
Qed.

(** Whether a line is spliced shows in its end: in what follows the last
    character that is not a blank. *)
Lemma spliced_app (a b : string) :
  only_blanks b = false -> spliced (a ++ b) = spliced b.
Proof.
  intros Hb. induction a as [|x a IH]; simpl; [reflexivity|].
  now rewrite only_blanks_app, Hb, andb_false_r, andb_false_r, IH.
Qed.

(** A C string without NUL is read back whole. *)
Lemma c_str_plain (s : string) : plain s = true -> c_str s = s.
Proof.
  induction s as [|c s IH]; intros H; simpl; [reflexivity|].
  simpl in H. apply andb_true_iff in H as [Hc Hs].
  apply plain_char_inv in Hc as (_ & _ & _ & Hz).
  rewrite Hz, IH by assumption. reflexivity.
Qed.

Lemma lex_line_literal (pre v post : string) (toks : list token) :
  plain v = true ->
  only_blanks post = false ->
  lex_run (Code, []) pre = Some (InString EmptyString, toks) ->
  lex_line false (pre ++ v ++ post)
  = if spliced post then None
    else st <- lex_run (InString v, toks) post ;; lex_eol st.
Proof.
  intros Hv Hb Hpre. unfold lex_line.
  rewrite <- append_assoc, spliced_app by exact Hb.
  destruct (spliced post); [reflexivity|].
  rewrite append_assoc, lex_run_app, Hpre. simpl bind.
  rewrite lex_run_app, lex_run_plain by assumption. reflexivity.
Qed.

Lemma ssid_line_shape (v : string) :
  ssid_line v
  = ("const char* ssid = " ++ String dquote EmptyString) ++ v
      ++ String dquote ";        // Replace with your WiFi network name".
Proof. unfold ssid_line, quoted. simpl. now rewrite append_assoc. Qed.

Lemma password_line_shape (v : string) :
  password_line v
  = ("const char* password = " ++ String dquote EmptyString) ++ v
      ++ String dquote "; // Replace with your WiFi password".
Proof. unfold password_line, quoted. simpl. now rewrite append_assoc. Qed.

Lemma lex_ssid_line (v : string) :
  plain v = true ->
  lex_line false (ssid_line v)
  = Some (mk_lexed (decl_tokens "ssid" v)
                   (Some " Replace with your WiFi network name") false).
Proof.
  intros H. rewrite ssid_line_shape.
  rewrite (lex_line_literal _ _ _
             [TIdent "const"; TIdent "char"; TPunct "*"; TIdent "ssid";
              TPunct "="])
    by (assumption || reflexivity).
  reflexivity.
Qed.

Lemma lex_password_line (v : string) :
  plain v = true ->
  lex_line false (password_line v)
  = Some (mk_lexed (decl_tokens "password" v)
                   (Some " Replace with your WiFi password") false).
Proof.
  intros H. rewrite password_line_shape.
  rewrite (lex_line_literal _ _ _
             [TIdent "const"; TIdent "char"; TPunct "*"; TIdent "password";
              TPunct "="])
    by (assumption || reflexivity).
  reflexivity.
Qed.

Lemma lex_lines_app (a b : list string) : forall open,
  lex_lines open (a ++ b)%list
  = (ra <- lex_lines open a ;;
     rb <- lex_lines (snd ra) b ;;
     Some ((fst ra ++ fst rb)%list, snd rb)).
Proof.
  induction a as [|l a IH]; intros open; simpl.
  - destruct (lex_lines open b) as [[tb ob]|]; reflexivity.
  - destruct (lex_line open l) as [x|]; simpl; [|reflexivity].
    rewrite IH. destruct (lex_lines (lx_open x) a) as [[ta oa]|]; simpl;
      [|reflexivity].
    destruct (lex_lines oa b) as [[tb ob]|]; reflexivity.
Qed.

Lemma lex_copy (s p : string) :
  plain s = true -> plain p = true ->
  lex_file (copy_with s p) = Some (copy_tokens s p).
Proof.
  intros Hs Hp. unfold lex_file. rewrite copy_with_lines, lex_lines_app.
  match goal with
  | |- context [lex_lines false (firstn 17 secrets_example_h)] =>
      let r := eval vm_compute in
                 (lex_lines false (firstn 17 secrets_example_h)) in
      replace (lex_lines false (firstn 17 secrets_example_h)) with r
        by (vm_compute; reflexivity)
  end.
  cbn [bind snd fst lex_lines].
  rewrite lex_ssid_line by assumption. cbn [bind lx_open].
  rewrite lex_password_line by assumption. reflexivity.
Qed.

Lemma include_first (s p : string) :
  plain s = true -> plain p = true ->
  include_file pp_init (copy_with s p)
  = Some (mk_pp [SECRETS_H] []
            (decl_tokens "ssid" s ++ decl_tokens "password" p)%list).
Proof.
  intros Hs Hp. unfold include_file. rewrite lex_copy by assumption.
  vm_compute. reflexivity.
Qed.

(** The steps of the preprocessor over a guarded file. *)
Lemma pp_line_blank (st : pp_state) : pp_line st [] = Some st.
Proof.
  destruct st as [macros stack out]. unfold pp_line, active. simpl.
  destruct stack as [|[|] stack]; rewrite ?app_nil_r; reflexivity.
Qed.

Lemma pp_line_ifndef_defined (macros : list string) (stack : list bool)
  (out : list token) (m : string) :
  defined m macros = true ->
  pp_line (mk_pp macros stack out) [TPunct "#"; TIdent "ifndef"; TIdent m]
  = Some (mk_pp macros (false :: stack) out).
Proof.
  intros H. unfold pp_line, directive. simpl. rewrite H, andb_false_r.
  reflexivity.
Qed.

Lemma pp_line_define_skipped (macros : list string) (stack : list bool)
  (out : list token) (m : string) :
  pp_line (mk_pp macros (false :: stack) out)
          [TPunct "#"; TIdent "define"; TIdent m]
  = Some (mk_pp macros (false :: stack) out).
Proof. reflexivity. Qed.

Lemma pp_line_text_skipped (macros : list string) (stack : list bool)
  (out : list token) (k : string) (toks : list token) :
  pp_line (mk_pp macros (false :: stack) out) (TIdent k :: toks)
  = Some (mk_pp macros (false :: stack) out).
Proof. reflexivity. Qed.

Lemma pp_line_endif (macros : list string) (b : bool) (stack : list bool)
  (out : list token) :
  pp_line (mk_pp macros (b :: stack) out) [TPunct "#"; TIdent "endif"]
  = Some (mk_pp macros stack out).
Proof. reflexivity. Qed.

Lemma bind_some {A B : Type} (a : A) (f : A -> option B) :
  bind (Some a) f = f a.
Proof. reflexivity. Qed.

Lemma pp_lines_cons (st : pp_state) (toks : list token)
  (r : list (list token)) :
  pp_lines st (toks :: r) = (st' <- pp_line st toks ;; pp_lines st' r).
Proof. reflexivity. Qed.

(** Once the guard is defined, including a copy of the header changes
    nothing. *)
Lemma include_guarded (st : pp_state) (s p : string) :
  plain s = true -> plain p = true ->
  defined SECRETS_H (pp_macros st) = true -> pp_stack st = [] ->
  include_file st (copy_with s p) = Some st.
Proof.
  intros Hs Hp Hd Hk. destruct st as [macros stack out]. simpl in Hd, Hk.
  subst stack. unfold include_file. rewrite lex_copy by assumption.
  rewrite bind_some. unfold copy_tokens, decl_tokens. cbn [repeat app].
  repeat (rewrite pp_lines_cons;
          first [ rewrite pp_line_blank
                | rewrite pp_line_ifndef_defined by assumption
                | rewrite pp_line_define_skipped
                | rewrite pp_line_text_skipped
                | rewrite pp_line_endif ];
          rewrite bind_some; cbv beta).
  reflexivity.
Qed.

Lemma include_all_guarded (st : pp_state) (files : list (list string)) :
  defined SECRETS_H (pp_macros st) = true -> pp_stack st = [] ->
  Forall (fun f => exists s p,
            plain s = true /\ plain p = true /\ f = copy_with s p) files ->
  include_all st files = Some st.
Proof.
  intros Hd Hk Hall. induction Hall as [|f r (s & p & Hs & Hp & ->) _ IH];
    cbn [include_all]; [reflexivity|].
  rewrite include_guarded by assumption. rewrite bind_some. exact IH.
Qed.

(** In a translation unit that starts with a copy of the header and goes
    on with any number of copies, only the first one counts. *)
Lemma compile_first_copy (s p : string) (rest : list (list string)) :
  plain s = true -> plain p = true ->
  Forall (fun f => exists s' p',
            plain s' = true /\ plain p' = true /\ f = copy_with s' p') rest ->
  compile (copy_with s p :: rest) = Some (copy_decls s p).
Proof.
  intros Hs Hp Hall. unfold compile, preprocess. cbn [include_all].
  rewrite include_first by assumption. rewrite bind_some.
  rewrite include_all_guarded by (assumption || reflexivity).
  rewrite bind_some. vm_compute. reflexivity.
Qed.

Lemma template_is_copy :
  exists s p, plain s = true /\ plain p = true
              /\ secrets_example_h = copy_with s p.
Proof.
  exists placeholder_ssid, placeholder_password. repeat split; reflexivity.
Qed.

Lemma read_copy_decls (s p : string) :
  plain s = true -> plain p = true ->
  read_constant (copy_decls s p) "ssid" = Some s
  /\ read_constant (copy_decls s p) "password" = Some p.
Proof.
  intros Hs Hp. unfold read_constant, read. simpl.
  now rewrite (c_str_plain s Hs), (c_str_plain p Hp).
Qed.

(** Plain values make the round trip. *)
Lemma round_trip_plain (s p : string) :
  plain s = true -> plain p = true -> round_trip s p.
Proof.
  intros Hs Hp. exists (copy_decls s p). split.
  - apply compile_first_copy; auto.
  - now apply read_copy_decls.
Qed.

(** Without the guard, the second inclusion defines both names again and
    the build fails. *)
Lemma unguarded_twice_fails :
  let body := firstn 3 (skipn 16 secrets_example_h) in
  compile [body] = Some (copy_decls placeholder_ssid placeholder_password)
  /\ compile [body; body] = None.
Proof. split; reflexivity. Qed.

(** The operations the declared types of the header admit: pointing
    [ssid] or [password] at another literal, and nothing else. *)
Lemma well_typed_copy (s p : string) (op : operation) :
  well_typed (copy_decls s p) op = true ->
  exists x lit, op = Reseat x lit /\ (x = "ssid" \/ x = "password").
Proof.
  destruct op as [x lit | x i c]; unfold well_typed, type_of, copy_decls;
    cbn [find d_name].
  - destruct (String.eqb_spec "ssid" x) as [<-|_].
    { intros _. exists "ssid", lit. auto. }
    destruct (String.eqb_spec "password" x) as [<-|_].
    { intros _. exists "password", lit. auto. }
    discriminate.
  - destruct ("ssid" =? x); [discriminate|].
    destruct ("password" =? x); discriminate.
Qed.

(** Each character excluded from plain values breaks the round trip: a
    double quote ends the literal early, a line break leaves it open, a NUL
    cuts the C string short. *)
Lemma excluded_characters_matter :
  compile [copy_with ("pa" ++ String dquote "ss") "s3cr3t!"] = None
  /\ compile [copy_with (String "010" "Net") "s3cr3t!"] = None
  /\ compile [copy_with (String "013" "Net") "s3cr3t!"] = None
  /\ (ds <- compile [copy_with ("Home" ++ String "000" "Net") "s3cr3t!"] ;;
      read_constant ds "ssid") = Some "Home".
Proof. repeat split; reflexivity. Qed.

End Facts.

(** ** The claims of the specification *)

Import Source Lexer Preprocessor Parser Runtime Values Expected.

(** C1. The header defines exactly two variables, with the names [ssid] and
    [password]; each is a pointer to constant characters initialised with a
    string literal.  It defines nothing else: the one other name it
    introduces is the guard macro, which has no value. *)
Theorem C1_exactly_ssid_and_password :
  exists st ds,
    preprocess [secrets_example_h] = Some st
    /\ pp_macros st = ["SECRETS_H"]
    /\ parse_unit (pp_out st) = Some ds
    /\ compile [secrets_example_h] = Some ds
    /\ map d_name ds = ["ssid"; "password"]
    /\ Forall (fun d => d_type d = TPtr (TConst TChar)) ds
    /\ List.length ds = 2.
Proof.
  exists (mk_pp [SECRETS_H] []
            (decl_tokens "ssid" placeholder_ssid
             ++ decl_tokens "password" placeholder_password)%list),
         (copy_decls placeholder_ssid placeholder_password).
  split; [vm_compute; reflexivity|]. split; [reflexivity|].
  split; [vm_compute; reflexivity|]. split; [vm_compute; reflexivity|].
  split; [reflexivity|]. split; [|reflexivity].
  repeat constructor.
Qed.

(** C2. The committed header holds the placeholder values: [ssid] is
    "YOUR_WIFI_SSID" and [password] is "YOUR_WIFI_PASSWORD", both as the
    literal stands in the text and as the variable reads at run time. *)
Theorem C2_placeholder_values :
  exists ds,
    compile [secrets_example_h] = Some ds
    /\ map d_init ds = ["YOUR_WIFI_SSID"; "YOUR_WIFI_PASSWORD"]
    /\ read_constant ds "ssid" = Some "YOUR_WIFI_SSID"
    /\ read_constant ds "password" = Some "YOUR_WIFI_PASSWORD".
Proof.
  exists (copy_decls placeholder_ssid placeholder_password).
  repeat split; reflexivity.
Qed.

(** C3, as stated, fails: [ssid] is declared [const char*], a pointer that
    is not itself constant, so the assignment [ssid = "OtherNet";] is well
    typed and changes what [ssid] reads. *)
Lemma C3_pointer_can_be_reseated :
  ~ (forall ds,
       compile [secrets_example_h] = Some ds ->
       read_only ds "ssid" /\ read_only ds "password").
Proof.
  intros H.
  destruct (H (copy_decls placeholder_ssid placeholder_password) eq_refl)
    as [Hs _].
  specialize (Hs [Reseat "ssid" "OtherNet"]
                 (mk_memory ["YOUR_WIFI_SSID"; "YOUR_WIFI_PASSWORD"; "OtherNet"]
                            [("ssid", 2); ("password", 1)])
                 eq_refl eq_refl).
  discriminate Hs.
Qed.

(** C3, amended.  The header itself never changes either value: it
    consists of the two initialised declarations and nothing else.  Both
    variables have the type [const char*], pointer to constant characters:
    a store through either name, [ssid[i] = c] or [password[i] = c], does
    not type-check, while an assignment to either variable, [ssid = "..."]
    or [password = "..."], does. *)
Theorem C3_characters_const_pointers_not :
  exists st ds,
    preprocess [secrets_example_h] = Some st
    /\ pp_out st
       = (decl_tokens "ssid" "YOUR_WIFI_SSID"
          ++ decl_tokens "password" "YOUR_WIFI_PASSWORD")%list
    /\ parse_unit (pp_out st) = Some ds
    /\ type_of ds "ssid" = Some (TPtr (TConst TChar))
    /\ type_of ds "password" = Some (TPtr (TConst TChar))
    /\ (forall x i c, well_typed ds (Poke x i c) = false)
    /\ (forall lit,
          well_typed ds (Reseat "ssid" lit) = true
          /\ well_typed ds (Reseat "password" lit) = true).
Proof.
  exists (mk_pp [SECRETS_H] []
            (decl_tokens "ssid" placeholder_ssid
             ++ decl_tokens "password" placeholder_password)%list),
         (copy_decls placeholder_ssid placeholder_password).
  split; [vm_compute; reflexivity|]. split; [reflexivity|].
  split; [vm_compute; reflexivity|]. split; [reflexivity|].
  split; [reflexivity|]. split.
  - intros x i c.
    destruct (well_typed _ (Poke x i c)) eqn:E; [|reflexivity].
    apply Facts.well_typed_copy in E as (y & lit & E & _). discriminate E.
  - intros lit. split; reflexivity.
Qed.

(** C4, as stated, fails: a value with a backslash is not read back as it
    was typed.  In a copy with the network name [Home\net], the compiler
    reads backslash-n as a line feed. *)
Lemma C4_backslash_is_not_read_back :
  0 < String.length "Home\net" /\ 0 < String.length "s3cr3t!"
  /\ ~ round_trip "Home\net" "s3cr3t!".
Proof.
  split; [simpl; lia|]. split; [simpl; lia|].
  intros (ds & Hc & Hs & _).
  vm_compute in Hc. injection Hc as <-.
  vm_compute in Hs. discriminate Hs.
Qed.

(** C4, amended.  Round trip: for every pair of non-empty strings that
    hold no double quote, backslash, line break or NUL, a copy of the
    header with the two strings in place of the placeholders compiles, and
    [ssid] and [password] read back exactly those two strings. *)
Theorem C4_round_trip_of_plain_values (s p : string) :
  0 < String.length s -> 0 < String.length p ->
  plain s = true -> plain p = true ->
  round_trip s p.
Proof. intros _ _. apply Facts.round_trip_plain. Qed.

Lemma C4_round_trip_of_plain_values_witness :
  0 < String.length "HomeNet" /\ 0 < String.length "s3cr3t!"
  /\ plain "HomeNet" = true /\ plain "s3cr3t!" = true
  /\ round_trip "HomeNet" "s3cr3t!".
Proof.
  split; [simpl; lia|]. split; [simpl; lia|].
  split; [reflexivity|]. split; [reflexivity|].
  apply (C4_round_trip_of_plain_values "HomeNet" "s3cr3t!");
    [simpl; lia | simpl; lia | reflexivity | reflexivity].
Defined.

(** C5. The empty string is accepted for either variable: the copy
    compiles, the emptied variable reads back as the empty string, and the
    other value [v] is untouched. *)
Theorem C5_empty_value_is_accepted (v : string) :
  plain v = true ->
  round_trip EmptyString v /\ round_trip v EmptyString.
Proof.
  intros Hv. split; apply Facts.round_trip_plain; auto.
Qed.

Lemma C5_empty_value_is_accepted_witness :
  plain "s3cr3t!" = true
  /\ round_trip EmptyString "s3cr3t!" /\ round_trip "s3cr3t!" EmptyString.
Proof.
  split; [reflexivity|].
  apply (C5_empty_value_is_accepted "s3cr3t!"); reflexivity.
Defined.

(** C6. The header raises nothing and catches nothing: no token of the
    file is [throw], [try] or [catch], none opens a call or a body, the
    file compiles, and reading either variable cannot fail. *)
Theorem C6_nothing_raised_nothing_caught :
  exists tls ds,
    lex_file secrets_example_h = Some tls
    /\ inert (concat tls) = true
    /\ compile [secrets_example_h] = Some ds
    /\ forall x, In x (map d_name ds) -> read_constant ds x <> None.
Proof.
  exists (copy_tokens placeholder_ssid placeholder_password),
         (copy_decls placeholder_ssid placeholder_password).
  split; [reflexivity|]. split; [reflexivity|]. split; [reflexivity|].
  intros x [<- | [<- | []]]; discriminate.
Qed.


(** C8. The header is 21 lines of text (600 bytes, the last line without
    a line terminator). *)
Theorem C8_twenty_one_lines :
  List.length secrets_example_h = 21 /\ byte_size secrets_example_h = 600.
Proof. split; reflexivity. Qed.

(** C9. Inclusion is idempotent: a translation unit that includes the
    header once or more compiles to what a single inclusion gives, the two
    variables defined once. *)
Theorem C9_inclusion_is_idempotent (n : nat) :
  compile (repeat secrets_example_h (S n)) = compile [secrets_example_h]
  /\ compile [secrets_example_h]
     = Some (copy_decls "YOUR_WIFI_SSID" "YOUR_WIFI_PASSWORD").
Proof.
  split; [|reflexivity].
  change (compile [secrets_example_h])
    with (Some (copy_decls placeholder_ssid placeholder_password)).
  change (repeat secrets_example_h (S n))
    with (copy_with placeholder_ssid placeholder_password
            :: repeat secrets_example_h n).
  apply Facts.compile_first_copy; try reflexivity.
  apply Forall_forall. intros f Hf. apply repeat_spec in Hf. subst f.
  exact Facts.template_is_copy.
Qed.

(** C10. The header and a copy of it share the guard [SECRETS_H]: in a
    translation unit that includes both, whichever comes first defines
    [ssid] and [password] and the other one is skipped. *)
Theorem C10_template_and_copy_exclude_each_other (s p : string) :
  plain s = true -> plain p = true ->
  (exists st, preprocess [secrets_example_h] = Some st
              /\ pp_macros st = ["SECRETS_H"])
  /\ (exists st, preprocess [copy_with s p] = Some st
                 /\ pp_macros st = ["SECRETS_H"])
  /\ compile [secrets_example_h; copy_with s p]
     = Some (copy_decls "YOUR_WIFI_SSID" "YOUR_WIFI_PASSWORD")
  /\ compile [copy_with s p; secrets_example_h] = Some (copy_decls s p).
Proof.
  intros Hs Hp. split; [|split].
  - exists (mk_pp [SECRETS_H] []
              (decl_tokens "ssid" placeholder_ssid
               ++ decl_tokens "password" placeholder_password)%list).
    split; vm_compute; reflexivity.
  - exists (mk_pp [SECRETS_H] []
              (decl_tokens "ssid" s ++ decl_tokens "password" p)%list).
    unfold preprocess. cbn [include_all].
    rewrite Facts.include_first by assumption. split; reflexivity.
  - split.
    + change secrets_example_h
        with (copy_with placeholder_ssid placeholder_password).
      apply Facts.compile_first_copy; try reflexivity.
      constructor; [|constructor]. now exists s, p.
    + apply Facts.compile_first_copy; try assumption.
      constructor; [|constructor]. exact Facts.template_is_copy.
Qed.

Lemma C10_template_and_copy_exclude_each_other_witness :
  plain "HomeNet" = true /\ plain "s3cr3t!" = true
  /\ (exists st, preprocess [secrets_example_h] = Some st
                 /\ pp_macros st = ["SECRETS_H"])
  /\ (exists st, preprocess [copy_with "HomeNet" "s3cr3t!"] = Some st
                 /\ pp_macros st = ["SECRETS_H"])
  /\ compile [secrets_example_h; copy_with "HomeNet" "s3cr3t!"]
     = Some (copy_decls "YOUR_WIFI_SSID" "YOUR_WIFI_PASSWORD")
  /\ compile [copy_with "HomeNet" "s3cr3t!"; secrets_example_h]
     = Some (copy_decls "HomeNet" "s3cr3t!").
Proof.
  split; [reflexivity|]. split; [reflexivity|].
  apply (C10_template_and_copy_exclude_each_other "HomeNet" "s3cr3t!");
    reflexivity.
Defined.

(** ** Which values survive the round trip *)

Module Tight.
Import Source Lexer Preprocessor Parser Runtime Values Expected Literal.

Lemma length_append (a b : string) :
  String.length (a ++ b) = String.length a + String.length b.
Proof. induction a as [|c a IH]; simpl; [reflexivity | now rewrite IH]. Qed.

Lemma length_snoc (a : string) (c : ascii) :
  String.length (snoc a c) = S (String.length a).
Proof. unfold snoc. rewrite length_append. simpl. lia. Qed.

(** The lexer only ever adds tokens at the end. *)
Lemma code_step_mono (toks : list token) (c : ascii) (st : lstate) :
  code_step toks c = Some st -> exists more, snd st = (toks ++ more)%list.
Proof.
  unfold code_step, emit.
  destruct (is_space c); [intros [= <-]; exists []; now rewrite app_nil_r|].
  destruct (is_ident_start c);
    [intros [= <-]; exists []; now rewrite app_nil_r|].
  destruct (c =? dquote)%char;
    [intros [= <-]; exists []; now rewrite app_nil_r|].
  destruct (c =? "/")%char;
    [intros [= <-]; exists []; now rewrite app_nil_r|].
  destruct (is_digit c || (c =? "'")%char || (c =? "\")%char);
    [discriminate|].
  intros [= <-]. now exists [TPunct c].
Qed.

Lemma string_step_cases (acc : string) (toks : list token) (c : ascii) :
  string_step acc toks c = Some (Code, emit (TString acc) toks)
  \/ string_step acc toks c = Some (InEscape acc, toks)
  \/ (string_step acc toks c = Some (InString (snoc acc c), toks)).
Proof.
  unfold string_step. destruct (c =? dquote)%char; [now left|].
  destruct (c =? "\")%char; [right; now left | right; now right].
Qed.

Lemma lex_step_mono (st : lstate) (c : ascii) (st' : lstate) :
  lex_step st c = Some st' -> exists more, snd st' = (snd st ++ more)%list.
Proof.
  assert (Hnil : forall (m : mode) (toks : list token),
             exists more, snd (m, toks) = (toks ++ more)%list)
    by (intros; exists []; simpl; now rewrite app_nil_r).
  assert (Hstr : forall acc toks st1,
             string_step acc toks c = Some st1 ->
             exists more, snd st1 = (toks ++ more)%list).
  { intros acc toks st1 H.
    destruct (string_step_cases acc toks c) as [E | [E | E]];
      rewrite E in H; injection H as <-; [|apply Hnil|apply Hnil].
    unfold emit. simpl. eauto. }
  assert (Hcode : forall t toks st1,
             code_step (emit t toks) c = Some st1 ->
             exists more, snd st1 = (toks ++ more)%list).
  { intros t toks st1 H. apply code_step_mono in H as [more ->].
    unfold emit. rewrite <- app_assoc. eauto. }
  destruct st as [m toks]. unfold lex_step, close_escape. simpl snd.
  destruct m as [|acc|acc|acc|acc v n|acc v| | | |acc].
  - apply code_step_mono.
  - destruct (is_ident_char c); [intros [= <-]; apply Hnil|].
    destruct ((c =? dquote)%char && is_literal_prefix acc); [discriminate|].
    apply Hcode.
  - apply Hstr.
  - destruct (simple_escape c); [intros [= <-]; apply Hnil|].
    destruct (is_octal c); [intros [= <-]; apply Hnil|].
    destruct (c =? "x")%char; [intros [= <-]; apply Hnil | discriminate].
  - destruct (is_octal c && Nat.ltb n 3); [intros [= <-]; apply Hnil|].
    destruct (Nat.leb v 255); [apply Hstr | discriminate].
  - destruct (hex_value c), v; try (intros [= <-]; apply Hnil);
      try discriminate.
    destruct (Nat.leb n 255); [apply Hstr | discriminate].
  - destruct (c =? "/")%char; [intros [= <-]; apply Hnil|].
    destruct (c =? "*")%char; [intros [= <-]; apply Hnil|].
    apply Hcode.
  - intros [= <-]. apply Hnil.
  - intros [= <-]. apply Hnil.
  - intros [= <-]. apply Hnil.
Qed.

Lemma lex_run_mono (s : string) : forall st st',
  lex_run st s = Some st' -> exists more, snd st' = (snd st ++ more)%list.
Proof.
  induction s as [|c s IH]; intros st st'; simpl.
  - intros [= <-]. exists []. now rewrite app_nil_r.
  - destruct (is_newline c); [discriminate|].
    destruct (lex_step st c) as [st1|] eqn:E; [|discriminate]. simpl.
    intros H. apply IH in H as [m2 ->].
    apply lex_step_mono in E as [m1 ->]. rewrite <- app_assoc. eauto.
Qed.

Lemma lex_eol_mono (st : lstate) (x : lexed) :
  lex_eol st = Some x -> exists more, lx_tokens x = (snd st ++ more)%list.
Proof.
  destruct st as [m toks]. unfold lex_eol, emit. simpl snd.
  destruct m; try discriminate; intros [= <-]; simpl; eauto;
    exists []; now rewrite app_nil_r.
Qed.

(** One more character of the value keeps a short literal short. *)
Lemma short_string_step (n : nat) (toks0 : list token) (acc : string)
  (c : ascii) (st1 : lstate) (r : nat) :
  String.length acc + S r < n ->
  string_step acc toks0 c = Some st1 ->
  short_literal n toks0 st1 r.
Proof.
  intros Hn H.
  destruct (string_step_cases acc toks0 c) as [E | [E | E]];
    rewrite E in H; injection H as <-.
  - right. exists acc, []. split; [reflexivity | lia].
  - left. exists (String.length acc). simpl. repeat split. lia.
  - left. exists (S (String.length acc)). simpl. rewrite length_snoc.
    repeat split. lia.
Qed.

Lemma short_step (n : nat) (toks0 : list token) (st : lstate) (r : nat)
  (c : ascii) (st1 : lstate) :
  short_literal n toks0 st (S r) ->
  lex_step st c = Some st1 ->
  short_literal n toks0 st1 r.
Proof.
  intros [(k & Hk & Ht & Hn) | (v & more & Ht & Hv)] H.
  - destruct st as [m toks]. simpl in Hk, Ht. subst toks.
    unfold lex_step, close_escape in H.
    destruct m as [|acc|acc|acc|acc v n'|acc v| | | |acc];
      try discriminate Hk; simpl in Hk; injection Hk as <-.
    + apply (short_string_step n toks0 acc c); [lia | exact H].
    + destruct (simple_escape c) as [e|].
      { injection H as <-. left. exists (S (String.length acc)). simpl.
        rewrite length_snoc. repeat split. lia. }
      destruct (is_octal c).
      { injection H as <-. left. exists (S (String.length acc)). simpl.
        repeat split. lia. }
      destruct (c =? "x")%char; [|discriminate].
      injection H as <-. left. exists (S (String.length acc)). simpl.
      repeat split. lia.
    + destruct (is_octal c && Nat.ltb n' 3).
      { injection H as <-. left. exists (S (String.length acc)). simpl.
        repeat split. lia. }
      destruct (Nat.leb v 255); [|discriminate].
      apply (short_string_step n toks0 (snoc acc (ascii_of_nat v)) c);
        [rewrite length_snoc; lia | exact H].
    + destruct (hex_value c) as [d|], v as [w|]; try discriminate.
      * injection H as <-. left. exists (S (String.length acc)). simpl.
        repeat split. lia.
      * injection H as <-. left. exists (S (String.length acc)). simpl.
        repeat split. lia.
      * destruct (Nat.leb w 255); [|discriminate].
        apply (short_string_step n toks0 (snoc acc (ascii_of_nat w)) c);
          [rewrite length_snoc; lia | exact H].
  - right. apply lex_step_mono in H as [m1 ->]. rewrite Ht.
    exists v, (more ++ m1)%list. split; [|exact Hv].
    now rewrite <- app_assoc.
Qed.

(** The closing quote of the line either closes a short literal, or is
    taken for an escaped quote and leaves the literal open. *)
Lemma short_close (n : nat) (toks0 : list token) (st st1 : lstate) :
  short_literal n toks0 st 0 ->
  lex_step st dquote = Some st1 ->
  (exists v more, snd st1 = (toks0 ++ TString v :: more)%list
                  /\ String.length v < n)
  \/ (exists acc, st1 = (InString acc, toks0)).
Proof.
  intros [(k & Hk & Ht & Hn) | (v & more & Ht & Hv)] H.
  - destruct st as [m toks]. simpl in Hk, Ht. subst toks.
    unfold lex_step, close_escape in H.
    destruct m as [|acc|acc|acc|acc v n'|acc v| | | |acc];
      try discriminate Hk; simpl in Hk; injection Hk as <-.
    + injection H as <-. left. exists acc, []. split; [reflexivity | lia].
    + injection H as <-. right. eauto.
    + change (is_octal dquote) with false in H. simpl andb in H. cbv iota in H.
      destruct (Nat.leb v 255); [|discriminate]. injection H as <-.
      left. exists (snoc acc (ascii_of_nat v)), [].
      split; [reflexivity | rewrite length_snoc; lia].
    + change (hex_value dquote) with (@None nat) in H. cbv iota in H.
      destruct v as [w|]; [|discriminate].
      destruct (Nat.leb w 255); [|discriminate]. injection H as <-.
      left. exists (snoc acc (ascii_of_nat w)), [].
      split; [reflexivity | rewrite length_snoc; lia].
  - left. apply lex_step_mono in H as [m1 ->]. rewrite Ht.
    exists v, (more ++ m1)%list. split; [|exact Hv].
    now rewrite <- app_assoc.
Qed.

Lemma all_chars_snoc (f : ascii -> bool) (s : string) (c : ascii) :
  all_chars f (snoc s c) = all_chars f s && f c.
Proof.
  unfold snoc. induction s as [|a s IH]; simpl.
  - now rewrite andb_true_r.
  - rewrite IH. now rewrite andb_assoc.
Qed.

Lemma short_run (n : nat) (toks0 : list token) (s : string) :
  forall st st2,
    short_literal n toks0 st (String.length s) ->
    lex_run st s = Some st2 ->
    short_literal n toks0 st2 0.
Proof.
  induction s as [|c s IH]; intros st st2 Hst; simpl.
  - now intros [= <-].
  - destruct (is_newline c); [discriminate|].
    destruct (lex_step st c) as [st1|] eqn:E; [|discriminate]. simpl.
    apply IH. exact (short_step _ _ _ _ _ _ Hst E).
Qed.

(** Reading the value [s1 ++ s2] typed between the quotes, with [s2] left:
    either the literal stays open with exactly the characters of the value
    and none of them is special, or the literal is short. *)
Lemma lex_value (toks0 : list token) (s2 : string) :
  forall (s1 : string) (st2 : lstate),
    lex_plain s1 = true ->
    lex_run (InString s1, toks0) s2 = Some st2 ->
    (st2 = (InString (s1 ++ s2), toks0) /\ lex_plain (s1 ++ s2) = true)
    \/ short_literal (String.length s1 + String.length s2) toks0 st2 0.
Proof.
  induction s2 as [|c s2 IH]; intros s1 st2 Hp; simpl lex_run.
  - intros [= <-]. rewrite Facts.append_empty. now left.
  - destruct (is_newline c) eqn:Enl; [discriminate|].
    unfold lex_step, string_step.
    destruct (c =? dquote)%char eqn:Eq.
    { rewrite Facts.bind_some. intros H. right.
      apply (short_run _ toks0 s2 (Code, emit (TString s1) toks0));
        [|exact H].
      right. exists s1, []. split; [reflexivity | simpl; lia]. }
    destruct (c =? "\")%char eqn:Eb.
    { rewrite Facts.bind_some. intros H. right.
      apply (short_run _ toks0 s2 (InEscape s1, toks0)); [|exact H].
      left. exists (String.length s1). simpl. repeat split. lia. }
    rewrite Facts.bind_some. intros H.
    apply (IH (snoc s1 c)) in H.
    + rewrite Facts.snoc_app, length_snoc in H.
      simpl String.length.
      replace (String.length s1 + S (String.length s2))
        with (S (String.length s1) + String.length s2) by lia.
      exact H.
    + unfold lex_plain in *. rewrite all_chars_snoc, Hp.
      unfold lex_plain_char. now rewrite Eq, Eb, Enl.
Qed.

(** The first string token of a line [pre"s"post]: its value is [s] itself
    and no character of [s] is special, or it is shorter than [s]. *)
Lemma first_literal (pre s post : string) (toks0 : list token) (x : lexed) :
  lex_run (Code, []) pre = Some (InString EmptyString, toks0) ->
  plain post = true ->
  lex_line false (pre ++ s ++ String dquote post) = Some x ->
  exists v more,
    lx_tokens x = (toks0 ++ TString v :: more)%list
    /\ ((v = s /\ lex_plain s = true)
        \/ String.length v < String.length s).
Proof.
  intros Hpre Hpost H. unfold lex_line in H.
  destruct (spliced _); [discriminate|].
  rewrite Facts.lex_run_app, Hpre, Facts.bind_some, Facts.lex_run_app in H.
  destruct (lex_run (InString EmptyString, toks0) s) as [st2|] eqn:E2;
    [|discriminate].
  rewrite Facts.bind_some in H. simpl lex_run in H.
  change (is_newline dquote) with false in H. cbv iota in H.
  destruct (lex_step st2 dquote) as [st3|] eqn:E3; [|discriminate].
  rewrite Facts.bind_some in H.
  destruct (lex_run st3 post) as [st4|] eqn:E4; [|discriminate].
  rewrite Facts.bind_some in H.
  assert (Hdone : forall v more,
             snd st3 = (toks0 ++ TString v :: more)%list ->
             exists more', lx_tokens x = (toks0 ++ TString v :: more')%list).
  { intros v more Hv. apply lex_run_mono in E4 as [m4 E4].
    apply lex_eol_mono in H as [m5 ->]. rewrite E4, Hv.
    exists ((more ++ m4) ++ m5)%list.
    now rewrite <- !app_assoc. }
  apply lex_value in E2; [|reflexivity]. simpl in E2.
  destruct E2 as [[-> Hp] | Hshort].
  - injection E3 as <-. destruct (Hdone s [] eq_refl) as [more' Hx].
    exists s, more'. split; [exact Hx | now left].
  - destruct (short_close _ _ _ _ Hshort E3)
      as [(v & more & Hv & Hlen) | (acc & ->)].
    + destruct (Hdone v more Hv) as [more' Hx].
      exists v, more'. split; [exact Hx | now right].
    + rewrite Facts.lex_run_plain in E4 by assumption.
      injection E4 as <-. discriminate H.
Qed.

Lemma c_str_length (v : string) : String.length (c_str v) <= String.length v.
Proof.
  induction v as [|c v IH]; simpl; [lia|].
  destruct (c =? "000")%char; simpl; lia.
Qed.

Lemma c_str_fixed (s : string) :
  lex_plain s = true -> c_str s = s -> plain s = true.
Proof.
  unfold lex_plain, plain.
  induction s as [|c s IH]; simpl; [reflexivity|].
  intros Hp. apply andb_true_iff in Hp as [Hc Hs].
  destruct (c =? "000")%char eqn:Ez; [discriminate|].
  intros [= H]. rewrite (IH Hs H), andb_true_r.
  unfold plain_char. unfold lex_plain_char in Hc. rewrite Ez.
  apply negb_true_iff in Hc. apply negb_true_iff.
  now rewrite orb_false_r.
Qed.

(** A value read back as it was typed is plain. *)
Lemma read_back_plain (v s : string) :
  (v = s /\ lex_plain s = true) \/ String.length v < String.length s ->
  c_str v = s ->
  plain s = true.
Proof.
  intros [[-> Hp] | Hlen] H.
  - now apply c_str_fixed.
  - pose proof (c_str_length v) as Hle. rewrite H in Hle. lia.
Qed.

(** The preprocessor only ever adds tokens at the end. *)
Lemma pp_line_mono (st : pp_state) (toks : list token) (st' : pp_state) :
  pp_line st toks = Some st' ->
  exists more, pp_out st' = (pp_out st ++ more)%list.
Proof.
  assert (Hnil : exists more, pp_out st = (pp_out st ++ more)%list)
    by (exists []; now rewrite app_nil_r).
  assert (Htext : forall st1,
             Some (if active st
                   then mk_pp (pp_macros st) (pp_stack st)
                          (pp_out st ++ expand (pp_macros st) toks)
                   else st) = Some st1 ->
             exists more, pp_out st1 = (pp_out st ++ more)%list).
  { intros st1 [= <-]. destruct (active st); simpl; eauto. }
  unfold pp_line. destruct toks as [|[k|v|c] d]; try apply Htext.
  destruct (c =? "#")%char; [|apply Htext].
  unfold directive. destruct d as [|[k|v|c'] [|[m|w|c''] [|? ?]]];
    try discriminate; try (intros [= <-]; exact Hnil).
  - destruct (k =? "endif"); [|discriminate].
    destruct (pp_stack st); [discriminate|]. intros [= <-]. exact Hnil.
  - destruct (k =? "ifndef"); [intros [= <-]; exact Hnil|].
    destruct (k =? "define"); [|discriminate].
    intros [= <-].
    destruct (active st && negb (defined m (pp_macros st))); exact Hnil.
Qed.

Lemma pp_lines_mono (tls : list (list token)) : forall st st',
  pp_lines st tls = Some st' ->
  exists more, pp_out st' = (pp_out st ++ more)%list.
Proof.
  induction tls as [|toks tls IH]; intros st st'; simpl.
  - intros [= <-]. exists []. now rewrite app_nil_r.
  - destruct (pp_line st toks) as [st1|] eqn:E; [|discriminate]. simpl.
    intros H. apply IH in H as [m2 ->].
    apply pp_line_mono in E as [m1 ->]. rewrite <- app_assoc. eauto.
Qed.

Lemma pp_lines_app (a b : list (list token)) : forall st,
  pp_lines st (a ++ b)%list = (st' <- pp_lines st a ;; pp_lines st' b).
Proof.
  induction a as [|toks a IH]; intros st; simpl; [reflexivity|].
  destruct (pp_line st toks) as [st1|]; simpl; [apply IH | reflexivity].
Qed.

(** The group of tokens that is open when the splitter starts is the head
    of the first declaration. *)
Lemma split_decls_first (ts : list token) : forall cur gs,
  cur <> [] ->
  split_decls cur ts = Some gs ->
  exists g gs', gs = (cur ++ g)%list :: gs'.
Proof.
  induction ts as [|t ts IH]; intros cur gs Hcur; simpl.
  - destruct cur; [contradiction | discriminate].
  - destruct (is_punct ";" t).
    + destruct (split_decls [] ts) as [rest|]; [|discriminate].
      intros [= <-]. exists [], rest. now rewrite app_nil_r.
    + intros H. apply IH in H as (g & gs' & ->).
      * exists (t :: g), gs'. now rewrite <- app_assoc.
      * now destruct cur.
Qed.

(** The tokens before the value of a declaration. *)
Lemma lex_ssid_head :
  lex_run (Code, []) ("const char* ssid = " ++ String dquote EmptyString)
  = Some (InString EmptyString,
          [TIdent "const"; TIdent "char"; TPunct "*"; TIdent "ssid";
           TPunct "="]).
Proof. reflexivity. Qed.

Lemma lex_password_head :
  lex_run (Code, []) ("const char* password = " ++ String dquote EmptyString)
  = Some (InString EmptyString,
          [TIdent "const"; TIdent "char"; TPunct "*"; TIdent "password";
           TPunct "="]).
Proof. reflexivity. Qed.

(** A group that starts as a declaration of [ssid] or [password] parses
    only if it stops after the literal. *)
Lemma parse_ssid_group (v : string) (g : list token) (d : decl) :
  parse_decl ([TIdent "const"; TIdent "char"; TPunct "*"; TIdent "ssid";
               TPunct "="; TString v] ++ g)%list = Some d ->
  d = mk_decl (TPtr (TConst TChar)) "ssid" v.
Proof.
  destruct g as [|t g]; vm_compute; [now intros [= <-] | discriminate].
Qed.

Lemma parse_password_group (v : string) (g : list token) (d : decl) :
  parse_decl ([TIdent "const"; TIdent "char"; TPunct "*"; TIdent "password";
               TPunct "="; TString v] ++ g)%list = Some d ->
  d = mk_decl (TPtr (TConst TChar)) "password" v.
Proof.
  destruct g as [|t g]; vm_compute; [now intros [= <-] | discriminate].
Qed.

Lemma compile_one (f : list string) (ds : list decl) :
  compile [f] = Some ds ->
  exists tls st,
    lex_file f = Some tls
    /\ pp_lines pp_init tls = Some st
    /\ parse_unit (pp_out st) = Some ds.
Proof.
  unfold compile, preprocess. cbn [include_all]. unfold include_file.
  destruct (lex_file f) as [tls|] eqn:El; [|discriminate].
  rewrite Facts.bind_some.
  destruct (pp_lines pp_init tls) as [st|] eqn:Ep; [|discriminate].
  rewrite Facts.bind_some.
  destruct (pp_stack st); [|discriminate].
  cbv beta iota. rewrite !Facts.bind_some. intros H.
  exists tls, st. split; [reflexivity|]. split; assumption.
Qed.

(** The token lines of a copy, down to the line of [ssid]. *)
Lemma lex_copy_ssid (s p : string) (tls : list (list token)) :
  lex_file (copy_with s p) = Some tls ->
  exists x rest,
    lex_line false (ssid_line s) = Some x
    /\ tls = (firstn 17 (copy_tokens s p) ++ lx_tokens x :: rest)%list.
Proof.
  unfold lex_file. rewrite Facts.copy_with_lines, Facts.lex_lines_app.
  match goal with
  | |- context [lex_lines false (firstn 17 secrets_example_h)] =>
      let r := eval vm_compute in
                 (lex_lines false (firstn 17 secrets_example_h)) in
      replace (lex_lines false (firstn 17 secrets_example_h)) with r
        by (vm_compute; reflexivity)
  end.
  rewrite Facts.bind_some. cbn [snd fst lex_lines].
  destruct (lex_line false (ssid_line s)) as [x|]; [|discriminate].
  rewrite Facts.bind_some.
  destruct (_ <- lex_line (lx_open x) (password_line p) ;; _)
    as [[recs o]|]; [|discriminate].
  rewrite !Facts.bind_some. cbn [fst snd].
  destruct o; [discriminate|]. intros [= <-].
  exists x, (map lx_tokens recs). split; reflexivity.
Qed.

(** A unit whose tokens start as a declaration of [ssid] up to its
    literal declares [ssid] first, with the value of that literal. *)
Lemma parse_unit_ssid (v : string) (rest : list token) (ds : list decl) :
  parse_unit ([TIdent "const"; TIdent "char"; TPunct "*"; TIdent "ssid";
               TPunct "="; TString v] ++ rest)%list = Some ds ->
  exists ds', ds = mk_decl (TPtr (TConst TChar)) "ssid" v :: ds'.
Proof.
  unfold parse_unit.
  destruct (split_decls [] _) as [gs|] eqn:Es; [|discriminate].
  rewrite Facts.bind_some.
  change (split_decls
            [TIdent "const"; TIdent "char"; TPunct "*"; TIdent "ssid";
             TPunct "="; TString v] rest = Some gs) in Es.
  apply split_decls_first in Es as (g & gs' & ->); [|discriminate].
  cbn [parse_all].
  destruct (parse_decl _) as [d|] eqn:Ed; [|discriminate].
  apply parse_ssid_group in Ed. subst d. rewrite Facts.bind_some.
  destruct (parse_all gs') as [ds'|]; [|discriminate].
  rewrite !Facts.bind_some.
  destruct (distinct _); [|discriminate].
  intros [= <-]. now exists ds'.
Qed.

(** In a copy that compiles, the first variable is [ssid], and its value
    is what was typed, free of special characters, or something shorter. *)
Lemma ssid_value (s p : string) (ds : list decl) :
  compile [copy_with s p] = Some ds ->
  exists v ds',
    ds = mk_decl (TPtr (TConst TChar)) "ssid" v :: ds'
    /\ ((v = s /\ lex_plain s = true)
        \/ String.length v < String.length s).
Proof.
  intros H. apply compile_one in H as (tls & st & Hl & Hp & Hu).
  apply lex_copy_ssid in Hl as (x & rest & Hx & ->).
  rewrite Facts.ssid_line_shape in Hx.
  apply (first_literal _ _ _ _ _ lex_ssid_head) in Hx
    as (v & more & Hx & Hv); [|reflexivity].
  rewrite pp_lines_app in Hp.
  replace (pp_lines pp_init (firstn 17 (copy_tokens s p)))
    with (Some (mk_pp [SECRETS_H] [true] [])) in Hp
    by (vm_compute; reflexivity).
  rewrite Facts.bind_some, Facts.pp_lines_cons, Hx in Hp.
  change (pp_line (mk_pp [SECRETS_H] [true] []) _)
    with (Some (mk_pp [SECRETS_H] [true]
                  ([TIdent "const"; TIdent "char"; TPunct "*";
                    TIdent "ssid"; TPunct "="; TString v]
                   ++ expand [SECRETS_H] more)%list)) in Hp.
  rewrite Facts.bind_some in Hp.
  apply pp_lines_mono in Hp as [more2 Hout]. cbn [pp_out] in Hout.
  rewrite Hout, <- app_assoc in Hu.
  apply parse_unit_ssid in Hu as [ds' ->].
  exists v, ds'. split; [reflexivity | exact Hv].
Qed.

Lemma lex_copy_password (s p : string) (tls : list (list token)) :
  plain s = true ->
  lex_file (copy_with s p) = Some tls ->
  exists x rest,
    lex_line false (password_line p) = Some x
    /\ tls = (firstn 18 (copy_tokens s p) ++ lx_tokens x :: rest)%list.
Proof.
  intros Hs. unfold lex_file.
  rewrite Facts.copy_with_lines, Facts.lex_lines_app.
  match goal with
  | |- context [lex_lines false (firstn 17 secrets_example_h)] =>
      let r := eval vm_compute in
                 (lex_lines false (firstn 17 secrets_example_h)) in
      replace (lex_lines false (firstn 17 secrets_example_h)) with r
        by (vm_compute; reflexivity)
  end.
  rewrite Facts.bind_some. cbn [snd fst lex_lines].
  rewrite Facts.lex_ssid_line by assumption.
  rewrite Facts.bind_some. cbn [lx_open].
  destruct (lex_line false (password_line p)) as [x|]; [|discriminate].
  rewrite Facts.bind_some.
  destruct (_ <- lex_line (lx_open x) EmptyString ;; _)
    as [[recs o]|]; [|discriminate].
  rewrite !Facts.bind_some. cbn [fst snd].
  destruct o; [discriminate|]. intros [= <-].
  exists x, (map lx_tokens recs). split; reflexivity.
Qed.

Lemma parse_unit_password (s w : string) (rest : list token)
  (ds : list decl) :
  parse_unit (decl_tokens "ssid" s
              ++ [TIdent "const"; TIdent "char"; TPunct "*";
                  TIdent "password"; TPunct "="; TString w] ++ rest)%list
  = Some ds ->
  exists ds',
    ds = mk_decl (TPtr (TConst TChar)) "ssid" s
           :: mk_decl (TPtr (TConst TChar)) "password" w :: ds'.
Proof.
  unfold parse_unit.
  destruct (split_decls [] _) as [gs|] eqn:Es; [|discriminate].
  rewrite Facts.bind_some.
  change ((gs1 <- split_decls
                    [TIdent "const"; TIdent "char"; TPunct "*";
                     TIdent "password"; TPunct "="; TString w] rest ;;
           Some ([TIdent "const"; TIdent "char"; TPunct "*"; TIdent "ssid";
                  TPunct "="; TString s] :: gs1)) = Some gs) in Es.
  destruct (split_decls _ rest) as [gs1|] eqn:E1; [|discriminate].
  rewrite Facts.bind_some in Es. injection Es as <-.
  apply split_decls_first in E1 as (g & gs' & ->); [|discriminate].
  cbn [parse_all].
  change (parse_decl [TIdent "const"; TIdent "char"; TPunct "*";
                      TIdent "ssid"; TPunct "="; TString s])
    with (Some (mk_decl (TPtr (TConst TChar)) "ssid" s)).
  rewrite Facts.bind_some.
  destruct (parse_decl _) as [d|] eqn:Ed; [|discriminate].
  apply parse_password_group in Ed. subst d. rewrite Facts.bind_some.
  destruct (parse_all gs') as [ds'|]; [|discriminate].
  rewrite !Facts.bind_some.
  destruct (distinct _); [|discriminate].
  intros [= <-]. now exists ds'.
Qed.

(** In a copy with a plain network name that compiles, the second variable
    is [password], and its value is what was typed, free of special
    characters, or something shorter. *)
Lemma password_value (s p : string) (ds : list decl) :
  plain s = true ->
  compile [copy_with s p] = Some ds ->
  exists w ds',
    ds = mk_decl (TPtr (TConst TChar)) "ssid" s
           :: mk_decl (TPtr (TConst TChar)) "password" w :: ds'
    /\ ((w = p /\ lex_plain p = true)
        \/ String.length w < String.length p).
Proof.
  intros Hs H. apply compile_one in H as (tls & st & Hl & Hp & Hu).
  apply (lex_copy_password s p tls Hs) in Hl as (x & rest & Hx & ->).
  rewrite Facts.password_line_shape in Hx.
  apply (first_literal _ _ _ _ _ lex_password_head) in Hx
    as (w & more & Hx & Hw); [|reflexivity].
  rewrite pp_lines_app in Hp.
  replace (pp_lines pp_init (firstn 18 (copy_tokens s p)))
    with (Some (mk_pp [SECRETS_H] [true] (decl_tokens "ssid" s))) in Hp
    by (vm_compute; reflexivity).
  rewrite Facts.bind_some, Facts.pp_lines_cons, Hx in Hp.
  change (pp_line (mk_pp [SECRETS_H] [true] (decl_tokens "ssid" s)) _)
    with (Some (mk_pp [SECRETS_H] [true]
                  (decl_tokens "ssid" s
                   ++ [TIdent "const"; TIdent "char"; TPunct "*";
                       TIdent "password"; TPunct "="; TString w]
                   ++ expand [SECRETS_H] more)%list)) in Hp.
  rewrite Facts.bind_some in Hp.
  apply pp_lines_mono in Hp as [more2 Hout]. cbn [pp_out] in Hout.
  rewrite Hout, <- !app_assoc in Hu.
  apply parse_unit_password in Hu as [ds' ->].
  exists w, ds'. split; [reflexivity | exact Hw].
Qed.

(** In this fragment the round trip succeeds for plain values only.  (For
    values with a double quote or a backslash the fragment may have no
    answer where a compiler has one.) *)
Lemma round_trip_plain_only (s p : string) :
  round_trip s p -> plain s = true /\ plain p = true.
Proof.
  intros (ds & Hc & Hrs & Hrp).
  assert (Hs : plain s = true).
  { destruct (ssid_value s p ds Hc) as (v & ds' & -> & Hv).
    change (Some (c_str v) = Some s) in Hrs. injection Hrs as Hrs.
    exact (read_back_plain v s Hv Hrs). }
  split; [exact Hs|].
  destruct (password_value s p ds Hs Hc) as (w & ds' & -> & Hw).
  change (Some (c_str w) = Some p) in Hrp. injection Hrp as Hrp.
  exact (read_back_plain w p Hw Hrp).
Qed.

End Tight.

(** ** Including the header into a unit that has seen other code *)

Module Units.
Import Source Lexer Preprocessor Parser Runtime Values Expected Literal.

Lemma pp_line_ifndef_undefined (macros : list string) (out : list token)
  (m : string) :
  defined m macros = false ->
  pp_line (mk_pp macros [] out) [TPunct "#"; TIdent "ifndef"; TIdent m]
  = Some (mk_pp macros [true] out).
Proof.
  intros H. unfold pp_line, directive. simpl. rewrite H. reflexivity.
Qed.

Lemma pp_line_define_active (macros : list string) (stack : list bool)
  (out : list token) (m : string) :
  defined m macros = false ->
  pp_line (mk_pp macros (true :: stack) out)
          [TPunct "#"; TIdent "define"; TIdent m]
  = Some (mk_pp (macros ++ [m]) (true :: stack) out).
Proof.
  intros H. unfold pp_line, directive. simpl. rewrite H. reflexivity.
Qed.

Lemma pp_line_text_active (macros : list string) (stack : list bool)
  (out : list token) (k : string) (toks : list token) :
  pp_line (mk_pp macros (true :: stack) out) (TIdent k :: toks)
  = Some (mk_pp macros (true :: stack)
            (out ++ expand macros (TIdent k :: toks))).
Proof. reflexivity. Qed.

Lemma defined_app (x : string) (macros : list string) (m : string) :
  defined x (macros ++ [m]) = defined x macros || (x =? m).
Proof.
  unfold defined. rewrite existsb_app. simpl. now rewrite orb_false_r.
Qed.

(** A declaration none of whose words is a macro passes unchanged. *)
Lemma expand_decl_tokens (macros : list string) (name v : string) :
  defined "const" macros = false -> defined "char" macros = false ->
  defined name macros = false ->
  expand macros (decl_tokens name v) = decl_tokens name v.
Proof.
  intros Hc Hh Hn. unfold expand, decl_tokens. cbn [filter].
  rewrite Hc, Hh, Hn. reflexivity.
Qed.

(** The first inclusion, whatever the unit holds already. *)
Lemma include_fresh (macros : list string) (out : list token)
  (s p : string) :
  plain s = true -> plain p = true ->
  defined SECRETS_H macros = false ->
  defined "const" macros = false -> defined "char" macros = false ->
  defined "ssid" macros = false -> defined "password" macros = false ->
  include_file (mk_pp macros [] out) (copy_with s p)
  = Some (mk_pp (macros ++ [SECRETS_H]) []
            (out ++ decl_tokens "ssid" s ++ decl_tokens "password" p)).
Proof.
  intros Hs Hp Hg Hc Hh Hn Hw. unfold include_file.
  rewrite Facts.lex_copy by assumption. rewrite Facts.bind_some.
  unfold copy_tokens. cbn [repeat app].
  repeat (rewrite Facts.pp_lines_cons, Facts.pp_line_blank,
            Facts.bind_some; cbv beta).
  rewrite Facts.pp_lines_cons, pp_line_ifndef_undefined, Facts.bind_some
    by assumption.
  rewrite Facts.pp_lines_cons, pp_line_define_active, Facts.bind_some
    by assumption.
  repeat (rewrite Facts.pp_lines_cons, Facts.pp_line_blank,
            Facts.bind_some; cbv beta).
  unfold decl_tokens at 1 2.
  rewrite Facts.pp_lines_cons, pp_line_text_active, Facts.bind_some.
  rewrite Facts.pp_lines_cons, pp_line_text_active, Facts.bind_some.
  rewrite Facts.pp_lines_cons, Facts.pp_line_blank, Facts.bind_some.
  rewrite Facts.pp_lines_cons, Facts.pp_line_endif, Facts.bind_some.
  cbn [pp_lines pp_stack].
  fold (decl_tokens "ssid" s). fold (decl_tokens "password" p).
  rewrite !expand_decl_tokens
    by (rewrite defined_app; apply orb_false_iff; split;
        [assumption | reflexivity]).
  now rewrite <- app_assoc.
Qed.

End Units.

(** ** The comments are inert *)

Module Inert.
Import Source Lexer Preprocessor Parser Runtime Values Expected Comments.

(** The header is [header_with] at its own comments and values. *)
Lemma header_with_own :
  header_with instructions " WiFi Network Credentials"
    " Replace with your WiFi network name" " Replace with your WiFi password"
    placeholder_ssid placeholder_password
  = secrets_example_h.
Proof. reflexivity. Qed.

(** Blanks at the end of a line do not change whether it is spliced. *)
Lemma spliced_blanks (a b : string) :
  only_blanks b = true -> spliced (a ++ b) = spliced a.
Proof.
  intros Hb. induction a as [|x a IH]; simpl.
  - induction b as [|y b IHb]; simpl; [reflexivity|].
    simpl in Hb. apply andb_true_iff in Hb as [Hy Hb].
    rewrite (IHb Hb), orb_false_r.
    destruct (y =? "\")%char eqn:E; [|reflexivity].
    apply Ascii.eqb_eq in E. subst y. discriminate Hy.
  - now rewrite Facts.only_blanks_app, Hb, andb_true_r, IH.
Qed.

(** A line that ends in a comment is spliced when the comment is. *)
Lemma spliced_comment (code c : string) :
  spliced (code ++ "//" ++ c) = spliced c.
Proof.
  destruct (only_blanks c) eqn:Hc.
  - rewrite <- Facts.append_assoc, spliced_blanks by exact Hc.
    rewrite Facts.spliced_app by reflexivity.
    symmetry. apply (spliced_blanks EmptyString c Hc).
  - rewrite <- Facts.append_assoc. now apply Facts.spliced_app.
Qed.

(** Inside a block comment, text that does not close it gives no token
    and leaves the comment open. *)
Lemma lex_run_block (t : string) : forall (star : bool) (toks : list token),
  block_text star t = true ->
  exists star',
    lex_run (block_mode star, toks) t = Some (block_mode star', toks).
Proof.
  induction t as [|c t IH]; intros star toks H; simpl.
  - now exists star.
  - simpl in H. apply andb_true_iff in H as [H Ht].
    apply andb_true_iff in H as [Hnl Hend].
    apply negb_true_iff in Hnl. rewrite Hnl.
    apply negb_true_iff in Hend.
    destruct star; simpl in Hend |- *.
    + rewrite Hend. destruct (c =? "*")%char; simpl; apply (IH _ _ Ht).
    + destruct (c =? "*")%char; simpl; apply (IH _ _ Ht).
Qed.

Lemma lex_block_line (t : string) :
  block_line t = true -> lex_line true t = Some (mk_lexed [] None true).
Proof.
  unfold block_line, lex_line. intros H.
  apply andb_true_iff in H as [Ht Hb]. apply negb_true_iff in Hb.
  rewrite Hb. destruct (lex_run_block t false [] Ht) as [star' E].
  change (block_mode false) with Block in E. cbv iota. rewrite E.
  now destruct star'.
Qed.

Lemma lex_block_lines (block rest : list string) :
  forallb block_line block = true ->
  lex_lines true (block ++ rest)%list
  = (r <- lex_lines true rest ;;
     Some ((repeat (mk_lexed [] None true) (List.length block)
            ++ fst r)%list, snd r)).
Proof.
  intros H. induction block as [|t block IH]; simpl.
  - destruct (lex_lines true rest) as [[recs o]|]; reflexivity.
  - simpl in H. apply andb_true_iff in H as [Ht Hb].
    rewrite (lex_block_line t Ht), Facts.bind_some. cbn [lx_open].
    rewrite (IH Hb).
    destruct (lex_lines true rest) as [[recs o]|]; reflexivity.
Qed.

(** After [//], any text without a line terminator is comment. *)
Lemma lex_run_line (t : string) : forall (acc : string) (toks : list token),
  all_chars (fun c => negb (is_newline c)) t = true ->
  lex_run (Line acc, toks) t = Some (Line (acc ++ t), toks).
Proof.
  induction t as [|c t IH]; intros acc toks H; simpl.
  - now rewrite Facts.append_empty.
  - simpl in H. apply andb_true_iff in H as [Hc Ht].
    apply negb_true_iff in Hc. rewrite Hc. simpl.
    rewrite (IH _ _ Ht). now rewrite Facts.snoc_app.
Qed.

(** A line of code followed by [//] and a comment lexes to the tokens of
    the code. *)
Lemma lex_commented_line (code c : string) (toks : list token) :
  line_text c = true ->
  lex_run (Code, []) (code ++ "//") = Some (Line EmptyString, toks) ->
  lex_line false (code ++ "//" ++ c) = Some (mk_lexed toks (Some c) false).
Proof.
  unfold line_text, lex_line. intros H Hcode.
  apply andb_true_iff in H as [Hc Hb]. apply negb_true_iff in Hb.
  rewrite spliced_comment, Hb.
  rewrite <- Facts.append_assoc, Facts.lex_run_app, Hcode, Facts.bind_some.
  rewrite (lex_run_line c _ _ Hc). reflexivity.
Qed.

Lemma lex_title_line (c : string) :
  line_text c = true ->
  lex_line false (title_line c) = Some (mk_lexed [] (Some c) false).
Proof.
  intros H. apply (lex_commented_line EmptyString c []); [exact H|].
  reflexivity.
Qed.

Lemma lex_code_with_value (pre v post : string) (toks toks' : list token) :
  plain v = true ->
  lex_run (Code, []) pre = Some (InString EmptyString, toks) ->
  lex_run (InString v, toks) (post ++ "//")
  = Some (Line EmptyString, toks') ->
  lex_run (Code, []) ((pre ++ v ++ post) ++ "//")
  = Some (Line EmptyString, toks').
Proof.
  intros Hv Hpre Hpost.
  rewrite !Facts.append_assoc, Facts.lex_run_app, Hpre, Facts.bind_some.
  rewrite Facts.lex_run_app, Facts.lex_run_plain, Facts.bind_some
    by assumption.
  exact Hpost.
Qed.

Lemma lex_ssid_line_with (v c : string) :
  plain v = true -> line_text c = true ->
  lex_line false (ssid_line_with v c)
  = Some (mk_lexed (decl_tokens "ssid" v) (Some c) false).
Proof.
  intros Hv Hc.
  replace (ssid_line_with v c)
    with ((("const char* ssid = " ++ String dquote EmptyString) ++ v
           ++ String dquote ";        ") ++ "//" ++ c).
  - apply lex_commented_line; [exact Hc|].
    apply (lex_code_with_value _ v _
             [TIdent "const"; TIdent "char"; TPunct "*"; TIdent "ssid";
              TPunct "="]); [exact Hv | reflexivity | reflexivity].
  - unfold ssid_line_with, quoted. simpl.
    rewrite !Facts.append_assoc. reflexivity.
Qed.

Lemma lex_password_line_with (v c : string) :
  plain v = true -> line_text c = true ->
  lex_line false (password_line_with v c)
  = Some (mk_lexed (decl_tokens "password" v) (Some c) false).
Proof.
  intros Hv Hc.
  replace (password_line_with v c)
    with ((("const char* password = " ++ String dquote EmptyString) ++ v
           ++ String dquote "; ") ++ "//" ++ c).
  - apply lex_commented_line; [exact Hc|].
    apply (lex_code_with_value _ v _
             [TIdent "const"; TIdent "char"; TPunct "*"; TIdent "password";
              TPunct "="]); [exact Hv | reflexivity | reflexivity].
  - unfold password_line_with, quoted. simpl.
    rewrite !Facts.append_assoc. reflexivity.
Qed.

Lemma map_repeat_blank (n : nat) :
  map lx_tokens (repeat (mk_lexed [] None true) n) = repeat [] n.
Proof. induction n as [|n IH]; simpl; [reflexivity | now rewrite IH]. Qed.

(** The fixed lines of the header. *)
Lemma lex_fixed_lines :
  lex_line false "/*" = Some (mk_lexed [] None true)
  /\ lex_line true " */" = Some (mk_lexed [] None false)
  /\ lex_line false EmptyString = Some (mk_lexed [] None false)
  /\ lex_line false "#ifndef SECRETS_H"
     = Some (mk_lexed [TPunct "#"; TIdent "ifndef"; TIdent SECRETS_H]
               None false)
  /\ lex_line false "#define SECRETS_H"
     = Some (mk_lexed [TPunct "#"; TIdent "define"; TIdent SECRETS_H]
               None false)
  /\ lex_line false "#endif"
     = Some (mk_lexed [TPunct "#"; TIdent "endif"] None false).
Proof. repeat split; reflexivity. Qed.

(** The token lines of the header with other comments. *)
Lemma lex_header_with (block : list string) (c17 c18 c19 s p : string) :
  forallb block_line block = true ->
  line_text c17 = true -> line_text c18 = true -> line_text c19 = true ->
  plain s = true -> plain p = true ->
  lex_file (header_with block c17 c18 c19 s p)
  = Some (repeat [] (S (List.length block))
          ++ skipn 11 (copy_tokens s p))%list.
Proof.
  intros Hb H17 H18 H19 Hs Hp.
  destruct lex_fixed_lines as (L1 & L12 & L0 & L14 & L15 & L21).
  unfold lex_file, header_with. cbn [lex_lines].
  rewrite L1, Facts.bind_some. cbn [lx_open].
  rewrite (lex_block_lines _ _ Hb). cbn [lex_lines].
  rewrite L12, Facts.bind_some. cbn [lx_open].
  rewrite L0, Facts.bind_some. cbn [lx_open].
  rewrite L14, Facts.bind_some. cbn [lx_open].
  rewrite L15, Facts.bind_some. cbn [lx_open].
  rewrite L0, Facts.bind_some. cbn [lx_open].
  rewrite (lex_title_line _ H17), Facts.bind_some. cbn [lx_open].
  rewrite (lex_ssid_line_with _ _ Hs H18), Facts.bind_some. cbn [lx_open].
  rewrite (lex_password_line_with _ _ Hp H19), Facts.bind_some.
  cbn [lx_open].
  rewrite L0, Facts.bind_some. cbn [lx_open].
  rewrite L21. cbn [bind fst snd lx_open lx_tokens map].
  rewrite map_app, map_repeat_blank. reflexivity.
Qed.

Lemma pp_lines_blanks (n : nat) (rest : list (list token)) (st : pp_state) :
  pp_lines st (repeat [] n ++ rest)%list = pp_lines st rest.
Proof.
  induction n as [|n IH]; [reflexivity|].
  cbn [repeat app]. rewrite Facts.pp_lines_cons, Facts.pp_line_blank.
  rewrite Facts.bind_some. exact IH.
Qed.

(** Whatever the comments say, the header compiles to the two variables
    with the values between the quotes. *)
Lemma compile_header_with (block : list string) (c17 c18 c19 s p : string) :
  forallb block_line block = true ->
  line_text c17 = true -> line_text c18 = true -> line_text c19 = true ->
  plain s = true -> plain p = true ->
  compile [header_with block c17 c18 c19 s p] = Some (copy_decls s p).
Proof.
  intros Hb H17 H18 H19 Hs Hp. unfold compile, preprocess.
  cbn [include_all]. unfold include_file.
  rewrite lex_header_with by assumption.
  rewrite Facts.bind_some, pp_lines_blanks.
  vm_compute. reflexivity.
Qed.

End Inert.

(** ** Further properties of the header *)

Import Literal Comments.

(** X1. Among the values that hold no double quote and no backslash, the
    round trip holds for the plain ones and for no others: a copy of the
    header with such [s] and [p] between the quotes compiles and reads back
    exactly [s] and [p] if and only if neither value holds a line break or
    a NUL. *)
Theorem X1_round_trip_of_quote_free_values (s p : string) :
  quote_free s = true -> quote_free p = true ->
  (round_trip s p <-> plain s = true /\ plain p = true).
Proof.
  intros _ _. split.
  - apply Tight.round_trip_plain_only.
  - intros [Hs Hp]. now apply Facts.round_trip_plain.
Qed.

Lemma X1_round_trip_of_quote_free_values_witness :
  let cut := "Home" ++ String "000" "Net" in
  quote_free "HomeNet" = true /\ quote_free "s3cr3t!" = true
  /\ quote_free cut = true
  /\ round_trip "HomeNet" "s3cr3t!" /\ ~ round_trip cut "s3cr3t!".
Proof.
  intros cut. split; [reflexivity|]. split; [reflexivity|].
  split; [reflexivity|]. split.
  - apply (proj2 (X1_round_trip_of_quote_free_values "HomeNet" "s3cr3t!"
                    eq_refl eq_refl)).
    split; reflexivity.
  - intros H.
    apply (proj1 (X1_round_trip_of_quote_free_values cut "s3cr3t!"
                    eq_refl eq_refl)) in H.
    destruct H as [H _]. vm_compute in H. discriminate H.
Defined.

(** X2. In a translation unit that includes a copy of the header and then
    any number of further copies, each with its own plain values, only
    the first copy counts: the unit compiles to the two variables with the
    values of the first copy. *)
Theorem X2_only_the_first_copy_counts (s p : string)
  (others : list (string * string)) :
  plain s = true -> plain p = true ->
  forallb (fun sp => plain (fst sp) && plain (snd sp)) others = true ->
  compile (copy_with s p
             :: map (fun sp => copy_with (fst sp) (snd sp)) others)
  = Some (copy_decls s p).
Proof.
  intros Hs Hp Ho. apply Facts.compile_first_copy; try assumption.
  apply Forall_forall. intros f Hf.
  apply in_map_iff in Hf as ([s' p'] & <- & Hin).
  rewrite forallb_forall in Ho. specialize (Ho _ Hin). simpl in Ho.
  apply andb_true_iff in Ho as [Hs' Hp'].
  exists s', p'. repeat split; assumption.
Qed.

Lemma X2_only_the_first_copy_counts_witness :
  let others := [("YOUR_WIFI_SSID", "YOUR_WIFI_PASSWORD");
                 ("Cafe", "guest")] in
  plain "HomeNet" = true /\ plain "s3cr3t!" = true
  /\ forallb (fun sp => plain (fst sp) && plain (snd sp)) others = true
  /\ compile (copy_with "HomeNet" "s3cr3t!"
                :: map (fun sp => copy_with (fst sp) (snd sp)) others)
     = Some (copy_decls "HomeNet" "s3cr3t!").
Proof.
  intros others. split; [reflexivity|]. split; [reflexivity|].
  split; [reflexivity|].
  apply (X2_only_the_first_copy_counts "HomeNet" "s3cr3t!" others);
    reflexivity.
Defined.

(** X3. If [SECRETS_H] is already defined when the header or a copy of it
    is included, the inclusion adds nothing to the unit: no macro, no
    token.  A unit that holds nothing else then defines no variable. *)
Theorem X3_defined_guard_suppresses_the_header (st : pp_state)
  (s p : string) :
  plain s = true -> plain p = true ->
  defined SECRETS_H (pp_macros st) = true -> pp_stack st = [] ->
  include_file st (copy_with s p) = Some st
  /\ compile_from st [copy_with s p] = parse_unit (pp_out st).
Proof.
  intros Hs Hp Hd Hk. unfold compile_from. cbn [include_all].
  rewrite Facts.include_guarded by assumption.
  split; reflexivity.
Qed.

Lemma X3_defined_guard_suppresses_the_header_witness :
  let st := mk_pp ["ARDUINO"; "SECRETS_H"] [] [] in
  plain "HomeNet" = true /\ plain "s3cr3t!" = true
  /\ defined SECRETS_H (pp_macros st) = true /\ pp_stack st = []
  /\ include_file st (copy_with "HomeNet" "s3cr3t!") = Some st
  /\ compile_from st [copy_with "HomeNet" "s3cr3t!"] = Some [].
Proof.
  intros st. split; [reflexivity|]. split; [reflexivity|].
  split; [reflexivity|]. split; [reflexivity|].
  apply (X3_defined_guard_suppresses_the_header st "HomeNet" "s3cr3t!");
    reflexivity.
Defined.

(** X4. Included for the first time into a unit that holds macros and
    tokens already, the header or a copy of it adds [SECRETS_H] to the
    macros and exactly its two declarations after the tokens, provided
    none of [SECRETS_H], [const], [char], [ssid], [password] is a macro of
    the unit. *)
Theorem X4_first_inclusion_adds_two_declarations (macros : list string)
  (out : list token) (s p : string) :
  plain s = true -> plain p = true ->
  forallb (fun x => negb (defined x macros))
          [SECRETS_H; "const"; "char"; "ssid"; "password"] = true ->
  include_file (mk_pp macros [] out) (copy_with s p)
  = Some (mk_pp (macros ++ [SECRETS_H]) []
            (out ++ decl_tokens "ssid" s ++ decl_tokens "password" p)).
Proof.
  intros Hs Hp H. cbn [forallb] in H.
  repeat (apply andb_true_iff in H as [?H H]).
  repeat match goal with
         | E : negb _ = true |- _ => apply negb_true_iff in E
         end.
  now apply Units.include_fresh.
Qed.

Lemma X4_first_inclusion_adds_two_declarations_witness :
  let macros := ["ARDUINO"; "ESP32"] in
  let out := decl_tokens "hostname" "esp32cam" in
  plain "HomeNet" = true /\ plain "s3cr3t!" = true
  /\ forallb (fun x => negb (defined x macros))
             [SECRETS_H; "const"; "char"; "ssid"; "password"] = true
  /\ include_file (mk_pp macros [] out) (copy_with "HomeNet" "s3cr3t!")
     = Some (mk_pp (macros ++ [SECRETS_H]) []
               (out ++ decl_tokens "ssid" "HomeNet"
                    ++ decl_tokens "password" "s3cr3t!")).
Proof.
  intros macros out. split; [reflexivity|]. split; [reflexivity|].
  split; [reflexivity|].
  apply (X4_first_inclusion_adds_two_declarations macros out
           "HomeNet" "s3cr3t!"); reflexivity.
Defined.

(** X6. The comments are inert: with any other lines inside the block
    comment of lines 1 to 12 (none closing it), and any other text after
    the [//] of lines 17, 18 and 19, none of them ending in a backslash,
    blanks after it apart, the header compiles to the same two variables,
    whose values are the plain strings between the quotes. *)
Theorem X6_comments_do_not_matter (block : list string)
  (c17 c18 c19 s p : string) :
  forallb block_line block = true ->
  line_text c17 = true -> line_text c18 = true -> line_text c19 = true ->
  plain s = true -> plain p = true ->
  compile [header_with block c17 c18 c19 s p] = Some (copy_decls s p).
Proof. apply Inert.compile_header_with. Qed.

Lemma X6_comments_do_not_matter_witness :
  header_with instructions " WiFi Network Credentials"
    " Replace with your WiFi network name" " Replace with your WiFi password"
    "YOUR_WIFI_SSID" "YOUR_WIFI_PASSWORD"
  = secrets_example_h
  /\ forallb block_line [" * my network, see https://example.org/*wifi"]
     = true
  /\ line_text EmptyString = true /\ line_text " home // 2.4 GHz" = true
  /\ plain "HomeNet" = true /\ plain "s3cr3t!" = true
  /\ compile [header_with [" * my network, see https://example.org/*wifi"]
                EmptyString " home // 2.4 GHz" EmptyString
                "HomeNet" "s3cr3t!"]
     = Some (copy_decls "HomeNet" "s3cr3t!").
Proof.
  split; [reflexivity|]. split; [reflexivity|]. split; [reflexivity|].
  split; [reflexivity|]. split; [reflexivity|]. split; [reflexivity|].
  apply (X6_comments_do_not_matter
           [" * my network, see https://example.org/*wifi"]
           EmptyString " home // 2.4 GHz" EmptyString "HomeNet" "s3cr3t!");
    reflexivity.
Defined.
